(** * WebFetch MCP server: the fetch-and-extract pipeline of [WebFetch/main.py]

    A shallow embedding of the methods of class [WebFetchMCP]
    ([_fetch_webpage], [_fetch_multiple_pages], [_search_webpage_content],
    [_extract_links], [_extract_metadata]) together with the properties of
    the specification that concern them.

    Conventions of the embedding:
    - a Python [str] is a [string]; characters above 127 are carried along
      but have no case and are not white space (the ASCII part of
      [str.lower], [str.strip] and [str.splitlines]);
    - a Python [int] is a [Z];
    - a [dict] is a [gmap string _]; the JSON-like values that the tools
      return are the type [value];
    - [try: ... except Exception as e:] is the sum [exn + _] with an
      explicit handler;
    - what the third-party libraries compute from the outside world (the
      HTTP exchange, the HTML parser, the heuristic extractor, URL
      resolution) is a parameter, the class [World]. *)

From Stdlib Require Import ZArith Lia Sorted.
From Stdlib Require String Ascii DecimalString.
From stdpp Require Import gmap strings list fin_maps.

#[local] Set Warnings "-register-all".
#[local] Open Scope Z_scope.

(* ===================================================================== *)
(** ** Python strings *)
(* ===================================================================== *)

Module Py.

Abbreviation ascii := Ascii.ascii.

(** [len(s)] *)
Definition len (s : string) : Z := Z.of_nat (String.length s).

(** [c.isspace()] on ASCII: TAB, LF, VT, FF, CR, FS, GS, RS, US, space. *)
Definition is_space (c : ascii) : bool :=
  let n := Ascii.nat_of_ascii c in
  ((9 <=? n) && (n <=? 13) || (28 <=? n) && (n <=? 32))%nat.

(** Line boundaries of [str.splitlines()] on ASCII:
    LF, VT, FF, CR, FS, GS, RS (and CR LF as one boundary). *)
Definition is_linebreak (c : ascii) : bool :=
  let n := Ascii.nat_of_ascii c in
  ((10 <=? n) && (n <=? 13) || (28 <=? n) && (n <=? 30))%nat.

Definition CR : ascii := Ascii.ascii_of_nat 13.
Definition LF : ascii := Ascii.ascii_of_nat 10.
Definition NL : string := String LF "".

Definition lower_char (c : ascii) : ascii :=
  let n := Ascii.nat_of_ascii c in
  if ((65 <=? n) && (n <=? 90))%nat then Ascii.ascii_of_nat (n + 32) else c.

(** [s.lower()], on strings of ASCII characters.  Outside ASCII the
    lower-cased copy of a string need not have the length of the string;
    no general property below depends on the length of [lower s]. *)
Fixpoint lower (s : string) : string :=
  match s with
  | "" => ""
  | String c s' => String (lower_char c) (lower s')
  end.

(** [s.lstrip()], [s.rstrip()], [s.strip()] *)
Fixpoint lstrip (s : string) : string :=
  match s with
  | "" => ""
  | String c s' => if is_space c then lstrip s' else s
  end.

Definition rstrip (s : string) : string := String.rev (lstrip (String.rev s)).

Definition strip (s : string) : string := rstrip (lstrip s).

(** Put a character in front of the first fragment of a list of
    fragments under construction. *)
Definition push_char (c : ascii) (frags : list string) : list string :=
  match frags with
  | [] => [String c ""]
  | l :: ls => String c l :: ls
  end.

(** [s.splitlines()] *)
Fixpoint splitlines (s : string) : list string :=
  match s with
  | "" => []
  | String c s' =>
      if is_linebreak c then
        match s' with
        | String c' s'' =>
            if Ascii.eqb c CR && Ascii.eqb c' LF
            then "" :: splitlines s''
            else "" :: splitlines s'
        | "" => "" :: splitlines s'
        end
      else push_char c (splitlines s')
  end.

(** [s.split(sep)] for a non-empty [sep]: leftmost, non-overlapping
    occurrences of [sep] are the cuts.  [skip] counts the characters of
    a separator that is being consumed. *)
Fixpoint split_go (sep : string) (skip : nat) (s : string) : list string :=
  match s with
  | "" => [""]
  | String c s' =>
      match skip with
      | S k => split_go sep k s'
      | O =>
          if String.prefix sep s
          then "" :: split_go sep (String.length sep - 1) s'
          else push_char c (split_go sep 0 s')
      end
  end.

Definition split (sep s : string) : list string := split_go sep 0 s.

(** [sep.join(parts)] *)
Fixpoint join (sep : string) (parts : list string) : string :=
  match parts with
  | [] => ""
  | [p] => p
  | p :: ps => p +:+ sep +:+ join sep ps
  end.

(** [s.startswith(p)] *)
Definition startswith (s p : string) : bool := String.prefix p s.

(** A slice bound as Python normalises it: a negative bound counts from
    the end, and every bound is clamped to [0, len(s)]. *)
Definition slice_bound (s : string) (i : Z) : Z :=
  if i <? 0 then Z.max 0 (i + len s) else Z.min i (len s).

(** [s[a:b]] *)
Definition slice (s : string) (a b : Z) : string :=
  let a' := slice_bound s a in
  let b' := slice_bound s b in
  String.substring (Z.to_nat a') (Z.to_nat (b' - a')) s.

(** [s.find(t, start)]: the lowest index at or after [start] where [t]
    occurs in [s], or [-1]. *)
Definition find (s t : string) (start : Z) : Z :=
  let start' := if start <? 0 then Z.max 0 (start + len s) else start in
  match String.index (Z.to_nat start') t s with
  | Some p => Z.of_nat p
  | None => -1
  end.

(** [str(n)] for an integer. *)
Definition str_of_int (n : Z) : string :=
  DecimalString.NilZero.string_of_int (Z.to_int n).

End Py.


(* ===================================================================== *)
(** ** JSON-like values and exceptions *)
(* ===================================================================== *)

(** The values a tool puts in its result: what [json.dumps] accepts. *)
Inductive value :=
| VStr (s : string)
| VInt (n : Z)
| VBool (b : bool)
| VList (l : list value)
| VDict (d : gmap string value).

Abbreviation dict := (gmap string value).

(** [key in d] *)
Definition has_key (d : dict) (key : string) : bool :=
  bool_decide (is_Some (d !! key)).

(** Truth value of [d[key]] for the Boolean fields of a record. *)
Definition field_true (key : string) (v : value) : bool :=
  match v with
  | VDict d => match d !! key with Some (VBool b) => b | _ => false end
  | _ => false
  end.

(** The subclasses of [Exception] that a fetch meets.
    [ClientResponseError] is what aiohttp's [raise_for_status] raises. *)
Inductive exn :=
| ClientResponseError (status : Z) (message : string) (url : string)
| TimeoutError
| ClientConnectionError (msg : string)
| ValueError (msg : string)
| OtherException (msg : string).

(** The monad of code that may raise. *)
Definition M (A : Type) : Type := exn + A.
Definition ret {A} (a : A) : M A := inr a.
Definition raise {A} (e : exn) : M A := inl e.
Definition bind {A B} (m : M A) (k : A -> M B) : M B :=
  match m with
  | inl e => inl e
  | inr a => k a
  end.
(** [try: body except Exception as e: handler(e)] *)
Definition try_except {A} (body : M A) (handler : exn -> M A) : M A :=
  match body with
  | inl e => handler e
  | inr a => inr a
  end.

Notation "'let*' x := m 'in' k" := (bind m (fun x => k))
  (at level 10, x name, m at level 100, k at level 200).

(* ===================================================================== *)
(** ** The parse tree of BeautifulSoup *)
(* ===================================================================== *)

Module Bs4.

(** A node of the tree: a string, or a tag with its attribute
    dictionary and its children.  A soup is the list of the top-level
    nodes. *)
Inductive node :=
| NavigableString (s : string)
| Tag (name : string) (attrs : gmap string string) (contents : list node).

Definition name (n : node) : option string :=
  match n with
  | Tag nm _ _ => Some nm
  | NavigableString _ => None
  end.

Definition attrs (n : node) : gmap string string :=
  match n with
  | Tag _ a _ => a
  | NavigableString _ => ∅
  end.

(** [tag.get(key, default)] *)
Definition get (n : node) (key dflt : string) : string :=
  default dflt (attrs n !! key).

(** All tags below a node, the node included, in document order. *)
Fixpoint tags (n : node) : list node :=
  match n with
  | NavigableString _ => []
  | Tag _ _ cs => n :: flat_map tags cs
  end.

(** [soup.find_all(name)] and [soup.find(name)] *)
Definition find_all (nm : string) (soup : list node) : list node :=
  filter (λ t, name t = Some nm) (flat_map tags soup).

Definition find (nm : string) (soup : list node) : option node :=
  head (find_all nm soup).

(** [soup.find_all(name, href=True)]: the attribute is present. *)
Definition find_all_with (nm attr : string) (soup : list node) : list node :=
  filter (λ t, is_Some (attrs t !! attr)) (find_all nm soup).

(** [s.split()]: the maximal runs of non-space characters. *)
Fixpoint words_go (cur : string) (s : string) : list string :=
  match s with
  | "" => if decide (cur = "") then [] else [String.rev cur]
  | String c s' =>
      if Py.is_space c
      then (if decide (cur = "") then [] else [String.rev cur]) ++ words_go "" s'
      else words_go (String c cur) s'
  end.
Definition words (s : string) : list string := words_go "" s.

(** [soup.find(name, rel=v)]: [rel] is a multi-valued attribute, the tag
    matches when one of its values is [v]. *)
Definition has_rel (v : string) (t : node) : bool :=
  match attrs t !! "rel" with
  | Some r => bool_decide (v ∈ words r)
  | None => false
  end.

Definition find_rel (nm v : string) (soup : list node) : option node :=
  head (filter (λ t, has_rel v t) (find_all nm soup)).

(** The strings below a node, in document order. *)
Fixpoint strings (n : node) : list string :=
  match n with
  | NavigableString s => [s]
  | Tag _ _ cs => flat_map strings cs
  end.

Fixpoint concat (l : list string) : string :=
  match l with
  | [] => ""
  | s :: l' => s +:+ concat l'
  end.

(** [soup.get_text()] and [tag.get_text(strip=True)] *)
Definition get_text (soup : list node) : string :=
  concat (flat_map strings soup).

Definition get_text_strip (n : node) : string :=
  concat (filter (λ s, s ≠ "") (Py.strip <$> strings n)).

(** [for t in soup(names): t.extract()]: every tag with one of the names
    is taken out of the tree with all that is below it. *)
Fixpoint extract (names : list string) (n : node) : list node :=
  match n with
  | NavigableString _ => [n]
  | Tag nm a cs =>
      if decide (nm ∈ names) then []
      else [Tag nm a (flat_map (extract names) cs)]
  end.

Definition extract_all (names : list string) (soup : list node) : list node :=
  flat_map (extract names) soup.

End Bs4.

(* ===================================================================== *)
(** ** The outside world *)
(* ===================================================================== *)

(** What [session.get(url)] hands back once the headers have arrived.
    [text] is the outcome of [await response.text()]. *)
Record response := {
  status : Z;
  reason : string;
  real_url : string;
  headers : gmap string string;
  text : M string
}.

(** Everything the methods obtain from outside the repository:
    - [session_get]: aiohttp's [session.get(url)], which raises on
      connection errors and timeouts;
    - [trafilatura_extract]: [trafilatura.extract(html, include_links=True,
      include_images=True)], [None] when nothing is found;
    - [BeautifulSoup]: [BeautifulSoup(html, 'html.parser')];
    - [urljoin], [urlparse_netloc]: [urllib.parse.urljoin] and
      [urllib.parse.urlparse(_).netloc], on the references that they
      accept (on a malformed one they raise [ValueError], which the
      [except] branch of the caller turns into its failure dictionary);
    - [repr]: Python's [repr] of a string. *)
Class World := {
  session_get : string -> M response;
  trafilatura_extract : string -> option string;
  BeautifulSoup : string -> list Bs4.node;
  urljoin : string -> string -> string;
  urlparse_netloc : string -> string;
  repr : string -> string
}.

(** [response.raise_for_status()] of aiohttp: raises when [status >= 400]. *)
Definition raise_for_status (r : response) : M unit :=
  if 400 <=? status r
  then raise (ClientResponseError (status r) (reason r) (real_url r))
  else ret tt.

(** [str(e)].  For [ClientResponseError] aiohttp formats
    ["{status}, message={message!r}, url={url!r}"]; an
    [asyncio.TimeoutError] has an empty message. *)
Definition str_exn `{World} (e : exn) : string :=
  match e with
  | ClientResponseError st msg url =>
      Py.str_of_int st +:+ ", message=" +:+ repr msg
        +:+ ", url=URL(" +:+ repr url +:+ ")"
  | TimeoutError => ""
  | ClientConnectionError msg => msg
  | ValueError msg => msg
  | OtherException msg => msg
  end.

(* ===================================================================== *)
(** ** class WebFetchMCP *)
(* ===================================================================== *)

(** The argument dictionaries of the tools; an optional key that is
    missing is [None] and takes the default of [args.get(key, default)].
    The numbers [context_chars], [max_concurrent] and [timeout] are
    integers here: the slice of [_search_webpage_content] raises
    [TypeError] on a float bound, and a semaphore with a fractional value
    is outside of what [gather] below describes. *)
Record fetch_args := {
  fa_url : string;
  fa_extract_content : option bool;
  fa_include_metadata : option bool;
  fa_timeout : option Z
}.

Record batch_args := {
  ba_urls : list string;
  ba_extract_content : option bool;
  ba_include_metadata : option bool;
  ba_max_concurrent : option Z;
  ba_timeout : option Z
}.

Record search_args := {
  sa_url : string;
  sa_search_terms : list string;
  sa_case_sensitive : option bool;
  sa_context_chars : option Z
}.

Record links_args := {
  la_url : string;
  la_filter_internal : option bool;
  la_filter_external : option bool;
  la_include_anchors : option bool
}.

Module WebFetchMCP.
Section methods.
Context `{World}.

(** *** [_extract_metadata] *)

(** One iteration of [for meta in meta_tags]. *)
Definition meta_step (metadata : gmap string string) (meta : Bs4.node)
  : gmap string string :=
  let name := Py.lower (Bs4.get meta "name" "") in
  let property_name := Py.lower (Bs4.get meta "property" "") in
  let content := Bs4.get meta "content" "" in
  if decide (name = "description") then <["description" := content]> metadata
  else if decide (name = "keywords") then <["keywords" := content]> metadata
  else if decide (name = "author") then <["author" := content]> metadata
  else if decide (property_name = "og:title") then <["og_title" := content]> metadata
  else if decide (property_name = "og:description") then <["og_description" := content]> metadata
  else if decide (property_name = "og:image") then <["og_image" := content]> metadata
  else if decide (property_name = "og:url") then <["og_url" := content]> metadata
  else if decide (property_name = "og:type") then <["og_type" := content]> metadata
  else if decide (name = "twitter:card") then <["twitter_card" := content]> metadata
  else if decide (name = "twitter:title") then <["twitter_title" := content]> metadata
  else if decide (name = "twitter:description") then <["twitter_description" := content]> metadata
  else if decide (name = "twitter:image") then <["twitter_image" := content]> metadata
  else metadata.

Definition _extract_metadata (html_content url : string) : gmap string string :=
  let soup := BeautifulSoup html_content in
  let metadata : gmap string string := ∅ in
  (* Basic metadata *)
  let title_tag := Bs4.find "title" soup in
  let metadata :=
    <["title" := match title_tag with
                 | Some t => Bs4.get_text_strip t
                 | None => ""
                 end]> metadata in
  (* Meta tags *)
  let meta_tags := Bs4.find_all "meta" soup in
  let metadata := foldl meta_step metadata meta_tags in
  (* Canonical URL *)
  let canonical := Bs4.find_rel "link" "canonical" soup in
  let metadata :=
    match canonical with
    | Some c => <["canonical_url" := Bs4.get c "href" ""]> metadata
    | None => metadata
    end in
  (* Language *)
  let html_tag := Bs4.find "html" soup in
  let metadata :=
    match html_tag with
    | Some h => <["language" := Bs4.get h "lang" ""]> metadata
    | None => metadata
    end in
  metadata.

(** *** [_fetch_webpage] *)

(** The [else] branch of [if extracted:], the fallback to BeautifulSoup. *)
Definition fallback_content (html_content : string) : string :=
  let soup := BeautifulSoup html_content in
  (* Remove script and style elements *)
  let soup := Bs4.extract_all ["script"; "style"] soup in
  (* Get text content *)
  let text := Bs4.get_text soup in
  (* Clean up text *)
  let lines := Py.strip <$> Py.splitlines text in
  let chunks := Py.strip <$> flat_map (Py.split "  ") lines in
  Py.join Py.NL (filter (λ chunk, chunk ≠ "") chunks).

(** [if extracted:] holds for a string that is neither [None] nor empty. *)
Definition truthy (extracted : option string) : option string :=
  match extracted with
  | Some s => if decide (s = "") then None else Some s
  | None => None
  end.

Definition failure (key url : string) (e : exn) : dict :=
  {[ key := VStr url; "error" := VStr (str_exn e); "status" := VStr "failed" ]}.

(** The session is the shared aiohttp session; the timeout that the
    method sets on it bounds the exchange, whose outcome ([TimeoutError]
    included) is what [session_get] answers. *)
Definition _fetch_webpage (args : fetch_args) : M dict :=
  let url := fa_url args in
  let extract_content := default true (fa_extract_content args) in
  let include_metadata := default true (fa_include_metadata args) in
  try_except
    (let* response := session_get url in
     let* _ := raise_for_status response in
     let* html_content := text response in
     let result : dict :=
       {[ "url" := VStr url;
          "status_code" := VInt (status response);
          "content_type" := VStr (default "" (headers response !! "content-type"));
          "content_length" := VInt (Py.len html_content) ]} in
     let result :=
       if include_metadata
       then <["metadata" := VDict (VStr <$> _extract_metadata html_content url)]> result
       else result in
     let result :=
       if extract_content then
         match truthy (trafilatura_extract html_content) with
         | Some extracted => <["content" := VStr extracted]> result
         | None => <["content" := VStr (fallback_content html_content)]> result
         end
       else <["raw_html" := VStr html_content]> result in
     ret result)
    (λ e, ret (failure "url" url e)).

(** *** [_fetch_multiple_pages] *)

(** The inner coroutine [fetch_single(url)]. *)
Definition fetch_single (args : batch_args) (url : string) : M dict :=
  _fetch_webpage
    {| fa_url := url;
       fa_extract_content := Some (default true (ba_extract_content args));
       fa_include_metadata := Some (default true (ba_include_metadata args));
       fa_timeout := Some (default 30 (ba_timeout args)) |}.

(** [asyncio.gather] of the tasks, with [return_exceptions=True], under
    the semaphore.
    The tasks wait in the order of creation for a permit ([waiting]),
    run ([running]), and on completion store their outcome (a returned
    dictionary, or the exception object) in the slot of their own index
    and give the permit back. *)
Record sched := {
  waiting : list nat;
  running : list nat;
  permits : nat;
  slots : list (option (M dict))
}.

Inductive event :=
| Acquire            (* the first waiting task enters [async with semaphore] *)
| Complete (i : nat) (* the running task [i] returns and releases *).

Definition sched_init (n : nat) (max_concurrent : nat) : sched :=
  {| waiting := seq 0 n; running := []; permits := max_concurrent;
     slots := replicate n None |}.

Definition sched_step (task : nat -> M dict) (s : sched) (e : event)
  : option sched :=
  match e with
  | Acquire =>
      match waiting s, permits s with
      | i :: w, S p =>
          Some {| waiting := w; running := i :: running s; permits := p;
                  slots := slots s |}
      | _, _ => None
      end
  | Complete i =>
      if decide (i ∈ running s)
      then Some {| waiting := waiting s;
                   running := filter (λ j, j ≠ i) (running s);
                   permits := S (permits s);
                   slots := <[i := Some (task i)]> (slots s) |}
      else None
  end.

Fixpoint sched_run (task : nat -> M dict) (s : sched) (es : list event)
  : option sched :=
  match es with
  | [] => Some s
  | e :: es' =>
      match sched_step task s e with
      | Some s' => sched_run task s' es'
      | None => None
      end
  end.

(** [gather] returns when every task is done. *)
Definition sched_done (s : sched) : bool :=
  bool_decide (waiting s = [] ∧ running s = []).

(** The results of [gather] for the interleaving [es]: [None] when [es]
    is not a complete run of the tasks. *)
Definition gather (tasks : list (M dict)) (max_concurrent : nat)
    (es : list event) : option (list (M dict)) :=
  let task i := default (raise (OtherException "")) (tasks !! i) in
  match sched_run task (sched_init (length tasks) max_concurrent) es with
  | Some s =>
      if sched_done s
      then Some (default (raise (OtherException "")) <$> slots s)
      else None
  | None => None
  end.

(** [isinstance(r, dict) and "error" not in r] *)
Definition is_successful (r : M dict) : bool :=
  match r with
  | inr d => negb (has_key d "error")
  | inl _ => false
  end.

(** [isinstance(r, dict) and "error" in r or isinstance(r, Exception)] *)
Definition is_failed (r : M dict) : bool :=
  match r with
  | inr d => has_key d "error"
  | inl _ => true
  end.

(** The dictionary that [_fetch_multiple_pages] returns for the
    gathered [results]. *)
Definition batch_result (urls : list string) (results : list (M dict)) : dict :=
  {[ "total_urls" := VInt (Z.of_nat (length urls));
     "successful" :=
       VInt (Z.of_nat (length (filter (λ r, is_successful r) results)));
     "failed" :=
       VInt (Z.of_nat (length (filter (λ r, is_failed r) results)));
     "results" :=
       VList ((λ r, match r with
                    | inr d => VDict d
                    | inl e => VDict {[ "error" := VStr (str_exn e) ]}
                    end) <$> results) ]}.

(** [_fetch_multiple_pages(args)] along the interleaving [es] of its
    tasks; [None] when [es] is not a complete run.
    [asyncio.Semaphore(n)] raises [ValueError] for a negative [n]. *)
Definition _fetch_multiple_pages (args : batch_args) (es : list event)
  : option (M dict) :=
  let urls := ba_urls args in
  let max_concurrent := default 5 (ba_max_concurrent args) in
  if max_concurrent <? 0
  then Some (raise (ValueError "Semaphore initial value must be >= 0"))
  else
    let tasks := fetch_single args <$> urls in
    match gather tasks (Z.to_nat max_concurrent) es with
    | Some results => Some (ret (batch_result urls results))
    | None => None
    end.

(** *** [_search_webpage_content] *)

Definition search_match (term : string) (pos : Z)
    (context : string) (context_start context_end : Z) : value :=
  VDict {[ "term" := VStr term;
           "position" := VInt pos;
           "context" := VStr context;
           "context_start" := VInt context_start;
           "context_end" := VInt context_end ]}.

(** The loop [while True:] for one term, from [start], appending to
    [matches].  [fuel] bounds the number of iterations; [None] when it
    runs out. *)
Fixpoint scan_term (fuel : nat) (content search_content : string)
    (context_chars : Z) (term : string) (start : Z) (matches : list value)
  : option (list value) :=
  match fuel with
  | O => None
  | S fuel' =>
      let pos := Py.find search_content term start in
      if pos =? -1 then Some matches
      else
        (* Get context around the match *)
        let context_start := Z.max 0 (pos - context_chars `div` 2) in
        let context_end :=
          Z.min (Py.len content) (pos + Py.len term + context_chars `div` 2) in
        let context := Py.slice content context_start context_end in
        let matches :=
          matches ++ [search_match term pos context context_start context_end] in
        scan_term fuel' content search_content context_chars term (pos + 1) matches
  end.

(** The loop [for term in search_terms:]. *)
Fixpoint scan_terms (content search_content : string) (context_chars : Z)
    (search_terms : list string) (matches : list value)
  : option (list value) :=
  match search_terms with
  | [] => Some matches
  | term :: rest =>
      match scan_term (S (S (String.length search_content)))
              content search_content context_chars term 0 matches with
      | Some matches' =>
          scan_terms content search_content context_chars rest matches'
      | None => None
      end
  end.

(** The part of [_search_webpage_content] after the fetch: the list
    [matches] for the extracted [content]. *)
Definition search (content : string) (search_terms : list string)
    (case_sensitive : bool) (context_chars : Z) : option (list value) :=
  let '(search_content, search_terms) :=
    if negb case_sensitive
    then (Py.lower content, Py.lower <$> search_terms)
    else (content, search_terms) in
  scan_terms content search_content context_chars search_terms [].

(** [None] stands for a scan that does not return. *)
Definition _search_webpage_content (args : search_args) : option (M dict) :=
  let url := sa_url args in
  let case_sensitive := default false (sa_case_sensitive args) in
  let context_chars := default 200 (sa_context_chars args) in
  (* First fetch the webpage *)
  match _fetch_webpage {| fa_url := url; fa_extract_content := Some true;
                          fa_include_metadata := Some false;
                          fa_timeout := None |} with
  | inl e => Some (raise e)
  | inr webpage_result =>
      if has_key webpage_result "error" then Some (ret webpage_result)
      else
        let content :=
          match webpage_result !! "content" with
          | Some (VStr c) => c
          | _ => ""
          end in
        match search content (sa_search_terms args) case_sensitive context_chars with
        | Some matches =>
            Some (ret
              {[ "url" := VStr url;
                 "search_terms" := VList (VStr <$> sa_search_terms args);
                 "total_matches" := VInt (Z.of_nat (length matches));
                 "matches" := VList matches;
                 "content_length" := VInt (Py.len content) ]})
        | None => None
        end
  end.

(** *** [_extract_links] *)

(** One iteration of [for link in soup.find_all('a', href=True)]. *)
Definition link_step (url base_domain : string)
    (filter_internal filter_external include_anchors : bool)
    (links : list value) (link : Bs4.node) : list value :=
  let href := Bs4.get link "href" "" in
  (* Skip anchor links if not requested *)
  if Py.startswith href "#" && negb include_anchors then links
  else
    (* Convert relative URLs to absolute *)
    let absolute_url := urljoin url href in
    let link_domain := urlparse_netloc absolute_url in
    let is_internal := bool_decide (link_domain = base_domain) in
    let is_external :=
      bool_decide (link_domain ≠ base_domain) && bool_decide (link_domain ≠ "") in
    (* Apply filters *)
    if filter_internal && negb is_internal then links
    else if filter_external && negb is_external then links
    else
      let link_info :=
        VDict {[ "url" := VStr absolute_url;
                 "text" := VStr (Bs4.get_text_strip link);
                 "title" := VStr (Bs4.get link "title" "");
                 "is_internal" := VBool is_internal;
                 "is_external" := VBool is_external ]} in
      links ++ [link_info].

Definition _extract_links (args : links_args) : M dict :=
  let url := la_url args in
  let filter_internal := default false (la_filter_internal args) in
  let filter_external := default false (la_filter_external args) in
  let include_anchors := default false (la_include_anchors args) in
  try_except
    (let* response := session_get url in
     let* _ := raise_for_status response in
     let* html_content := text response in
     let soup := BeautifulSoup html_content in
     let base_domain := urlparse_netloc url in
     let links :=
       foldl (link_step url base_domain filter_internal filter_external
                        include_anchors)
             [] (Bs4.find_all_with "a" "href" soup) in
     ret {[ "source_url" := VStr url;
            "total_links" := VInt (Z.of_nat (length links));
            "internal_count" :=
              VInt (Z.of_nat (length (filter (λ l, field_true "is_internal" l) links)));
            "external_count" :=
              VInt (Z.of_nat (length (filter (λ l, field_true "is_external" l) links)));
            "links" := VList links ]})
    (λ e, ret (failure "source_url" url e)).

(** *** [_get_page_metadata] *)

(** [url] is [args["url"]].  The metadata dictionary receives four more
    keys before it is returned. *)
Definition _get_page_metadata (url : string) : M dict :=
  try_except
    (let* response := session_get url in
     let* _ := raise_for_status response in
     let* html_content := text response in
     let metadata : dict := VStr <$> _extract_metadata html_content url in
     let metadata := <["url" := VStr url]> metadata in
     let metadata := <["status_code" := VInt (status response)]> metadata in
     let metadata :=
       <["content_type" :=
           VStr (default "" (headers response !! "content-type"))]> metadata in
     let metadata := <["content_length" := VInt (Py.len html_content)]> metadata in
     ret metadata)
    (λ e, ret (failure "url" url e)).

(** *** [handle_call_tool] *)

(** The dictionary [request.arguments] as the transport hands it over:
    any key may be missing. *)
Record arguments := {
  arg_url : option string;
  arg_urls : option (list string);
  arg_extract_content : option bool;
  arg_include_metadata : option bool;
  arg_timeout : option Z;
  arg_max_concurrent : option Z;
  arg_search_terms : option (list string);
  arg_case_sensitive : option bool;
  arg_context_chars : option Z;
  arg_filter_internal : option bool;
  arg_filter_external : option bool;
  arg_include_anchors : option bool
}.

(** [args[key]] raises [KeyError(key)] on a missing key; its [str] is the
    [repr] of the key. *)
Definition KeyError (key : string) : exn := OtherException ("'" +:+ key +:+ "'").

Definition required {A} (key : string) (v : option A) : M A :=
  match v with
  | Some x => ret x
  | None => raise (KeyError key)
  end.

(** The methods applied to such a dictionary: the required keys are read
    first, with [args[key]], before anything else is done. *)
Definition call_fetch_webpage (a : arguments) : M dict :=
  let* url := required "url" (arg_url a) in
  _fetch_webpage
    {| fa_url := url; fa_extract_content := arg_extract_content a;
       fa_include_metadata := arg_include_metadata a;
       fa_timeout := arg_timeout a |}.

Definition call_fetch_multiple_pages (a : arguments) (es : list event)
  : option (M dict) :=
  match required "urls" (arg_urls a) with
  | inl e => Some (raise e)
  | inr urls =>
      _fetch_multiple_pages
        {| ba_urls := urls; ba_extract_content := arg_extract_content a;
           ba_include_metadata := arg_include_metadata a;
           ba_max_concurrent := arg_max_concurrent a;
           ba_timeout := arg_timeout a |} es
  end.

Definition call_search_webpage_content (a : arguments) : option (M dict) :=
  match (let* url := required "url" (arg_url a) in
         let* search_terms := required "search_terms" (arg_search_terms a) in
         ret (url, search_terms)) with
  | inl e => Some (raise e)
  | inr (url, search_terms) =>
      _search_webpage_content
        {| sa_url := url; sa_search_terms := search_terms;
           sa_case_sensitive := arg_case_sensitive a;
           sa_context_chars := arg_context_chars a |}
  end.

Definition call_extract_links (a : arguments) : M dict :=
  let* url := required "url" (arg_url a) in
  _extract_links
    {| la_url := url; la_filter_internal := arg_filter_internal a;
       la_filter_external := arg_filter_external a;
       la_include_anchors := arg_include_anchors a |}.

Definition call_get_page_metadata (a : arguments) : M dict :=
  let* url := required "url" (arg_url a) in
  _get_page_metadata url.

(** The [if]/[elif] chain on the name of the tool, shared by
    [handle_call_tool] and by the HTTP wrapper; [unknown] is what the last
    [else] does.  [None] stands for a call that does not return. *)
Definition dispatch (name : string) (a : arguments) (es : list event)
    (unknown : option (M dict)) : option (M dict) :=
  if decide (name = "fetch_webpage") then Some (call_fetch_webpage a)
  else if decide (name = "fetch_multiple_pages") then call_fetch_multiple_pages a es
  else if decide (name = "search_webpage_content") then call_search_webpage_content a
  else if decide (name = "extract_links") then Some (call_extract_links a)
  else if decide (name = "get_page_metadata") then Some (call_get_page_metadata a)
  else unknown.

(** [CallToolResult(content=[TextContent(type="text", text=...)],
    isError=...)] *)
Record CallToolResult := {
  content_text : string;
  isError : bool
}.

(** [json.dumps(result, indent=2)] *)
Variable json_dumps : dict → string.

Definition handle_call_tool (name : string) (a : arguments) (es : list event)
  : option CallToolResult :=
  match dispatch name a es
          (Some (raise (ValueError ("Unknown tool: " +:+ name)))) with
  | Some (inr result) =>
      Some {| content_text := json_dumps result; isError := false |}
  | Some (inl e) =>
      Some {| content_text := "Error: " +:+ str_exn e; isError := true |}
  | None => None
  end.

End methods.
End WebFetchMCP.

(* ===================================================================== *)
(** ** The shared session *)
(* ===================================================================== *)

(** The attribute [self.session] of the server and what the methods do to
    it.  A session is told from another by [sid], the rank of its creation;
    [timeout] is the [total] of its [_timeout]. *)
Module Session.

Record session := {
  sid : nat;
  closed : bool;
  timeout : Z
}.

Record server := {
  current : option session;   (* [self.session] *)
  created : nat               (* sessions created so far *)
}.

Definition init : server := {| current := None; created := 0 |}.

(** [_get_session]: the session that is returned, and the server after. *)
Definition _get_session (srv : server) : session * server :=
  match current srv with
  | Some s =>
      if closed s then
        let s' := {| sid := created srv; closed := false; timeout := 30 |} in
        (s', {| current := Some s'; created := S (created srv) |})
      else (s, srv)
  | None =>
      let s' := {| sid := created srv; closed := false; timeout := 30 |} in
      (s', {| current := Some s'; created := S (created srv) |})
  end.

(** [cleanup] *)
Definition cleanup (srv : server) : server :=
  match current srv with
  | Some s =>
      if negb (closed s)
      then {| current := Some {| sid := sid s; closed := true; timeout := timeout s |};
              created := created srv |}
      else srv
  | None => srv
  end.

(** The calls that touch the session.  [_fetch_webpage] takes the session
    and overwrites its [_timeout]; [_extract_links] and
    [_get_page_metadata] take it as it is. *)
Inductive call :=
| FetchWebpage (timeout : option Z)
| ExtractLinks
| GetPageMetadata
| Cleanup.

(** The session that the call uses for its request (none for [cleanup]),
    and the server after. *)
Definition step (srv : server) (c : call) : option session * server :=
  match c with
  | FetchWebpage t =>
      let '(s, srv') := _get_session srv in
      let s' := {| sid := sid s; closed := closed s; timeout := default 30 t |} in
      (Some s', {| current := Some s'; created := created srv' |})
  | ExtractLinks | GetPageMetadata =>
      let '(s, srv') := _get_session srv in (Some s, srv')
  | Cleanup => (None, cleanup srv)
  end.

Definition run (srv : server) (cs : list call) : server :=
  foldl (λ srv c, (step srv c).2) srv cs.

End Session.

(* ===================================================================== *)
(** ** class WebFetchHTTPServer ([http_server.py]) *)
(* ===================================================================== *)

Module WebFetchHTTPServer.
Section routes.
Context `{World}.

(** [str(e)] of the [HTTPException(status_code, detail)] of FastAPI. *)
Variable str_http_exception : Z → string → string.

Definition valid_tools : list string :=
  ["fetch_webpage"; "fetch_multiple_pages"; "search_webpage_content";
   "extract_links"; "get_page_metadata"].

Definition HTTPException (status_code : Z) (detail : string) : exn :=
  OtherException (str_http_exception status_code detail).

(** Reading [result] when no branch has bound it. *)
Definition UnboundLocalError : exn :=
  OtherException
    "cannot access local variable 'result' where it is not associated with a value".

(** [call_tool(tool_name, request)]: the body of the [try] and its
    [except Exception] handler.  The chain of [elif] has no [else]: were no
    branch taken, [result] would be unbound at the [return]. *)
Definition call_tool (tool_name : string) (request : WebFetchMCP.arguments)
    (es : list WebFetchMCP.event) : option (M dict) :=
  let body : option (M dict) :=
    if decide (tool_name ∈ valid_tools) then
      match WebFetchMCP.dispatch tool_name request es
              (Some (raise UnboundLocalError)) with
      | Some (inr result) =>
          Some (ret ({[ "success" := VBool true; "result" := VDict result ]} : dict))
      | Some (inl e) => Some (raise e)
      | None => None
      end
    else
      Some (raise (HTTPException 404 ("Tool '" +:+ tool_name +:+ "' not found")))
  in
  match body with
  | Some m =>
      Some (try_except m
              (λ e, ret {[ "success" := VBool false; "error" := VStr (str_exn e) ]}))
  | None => None
  end.

(** [call_tool_generic(request)], with the two fields of the
    [ToolCallRequest]. *)
Definition call_tool_generic (tool_name : string)
    (arguments : WebFetchMCP.arguments) (es : list WebFetchMCP.event)
  : option (M dict) :=
  match call_tool tool_name arguments es with
  | Some m => Some (try_except m (λ e, raise (HTTPException 500 (str_exn e))))
  | None => None
  end.

(** The convenience endpoints. *)
Definition fetch_webpage_endpoint (request : WebFetchMCP.arguments)
    (es : list WebFetchMCP.event) : option (M dict) :=
  call_tool "fetch_webpage" request es.

Definition fetch_multiple_endpoint (request : WebFetchMCP.arguments)
    (es : list WebFetchMCP.event) : option (M dict) :=
  call_tool "fetch_multiple_pages" request es.

Definition search_endpoint (request : WebFetchMCP.arguments)
    (es : list WebFetchMCP.event) : option (M dict) :=
  call_tool "search_webpage_content" request es.

Definition links_endpoint (request : WebFetchMCP.arguments)
    (es : list WebFetchMCP.event) : option (M dict) :=
  call_tool "extract_links" request es.

Definition metadata_endpoint (request : WebFetchMCP.arguments)
    (es : list WebFetchMCP.event) : option (M dict) :=
  call_tool "get_page_metadata" request es.

End routes.
End WebFetchHTTPServer.

(* ===================================================================== *)
(** * Notions used to state the properties *)
(* ===================================================================== *)

(** [v[key]] for a value that is a dictionary. *)
Definition field (key : string) (v : value) : option value :=
  match v with
  | VDict d => d !! key
  | _ => None
  end.

(** [t] occurs in [s] at offset [p]. *)
Fixpoint occurs_at (t s : string) (p : nat) {struct p} : bool :=
  match p with
  | O => String.prefix t s
  | S p' =>
      match s with
      | "" => false
      | String _ s' => occurs_at t s' p'
      end
  end.

(** The offsets from [from] on at which [t] occurs in [s], in increasing
    order.  Occurrences may overlap. *)
Definition occurrences (t s : string) (from : nat) : list nat :=
  filter (λ p, occurs_at t s p) (seq from (S (String.length s) - from)).


(** The string that is scanned, and the terms that are looked for, in
    either mode of the search. *)
Definition searched (case_sensitive : bool) (s : string) : string :=
  if case_sensitive then s else Py.lower s.

(** The record that the scan appends for an occurrence of [term] at
    offset [p]. *)
Definition match_at (content : string) (context_chars : Z) (term : string)
    (p : nat) : value :=
  let pos := Z.of_nat p in
  let context_start := Z.max 0 (pos - context_chars `div` 2) in
  let context_end :=
    Z.min (Py.len content) (pos + Py.len term + context_chars `div` 2) in
  WebFetchMCP.search_match term pos
    (Py.slice content context_start context_end) context_start context_end.

(** The table of the recognized meta tags, in the order of the [elif]
    chain: the attribute that is inspected, the value it must have once
    lower-cased, and the field of the metadata that receives the content. *)
Inductive meta_attr := ByName | ByProperty.

Definition meta_table : list (meta_attr * string * string) :=
  [ (ByName, "description", "description");
    (ByName, "keywords", "keywords");
    (ByName, "author", "author");
    (ByProperty, "og:title", "og_title");
    (ByProperty, "og:description", "og_description");
    (ByProperty, "og:image", "og_image");
    (ByProperty, "og:url", "og_url");
    (ByProperty, "og:type", "og_type");
    (ByName, "twitter:card", "twitter_card");
    (ByName, "twitter:title", "twitter_title");
    (ByName, "twitter:description", "twitter_description");
    (ByName, "twitter:image", "twitter_image") ].

Definition meta_fields : list string := (λ e, e.2) <$> meta_table.

Definition meta_matches (meta : Bs4.node) (e : meta_attr * string * string)
  : bool :=
  match e.1.1 with
  | ByName => bool_decide (Py.lower (Bs4.get meta "name" "") = e.1.2)
  | ByProperty => bool_decide (Py.lower (Bs4.get meta "property" "") = e.1.2)
  end.

(** The field for which a meta tag counts: that of the first entry of the
    table that the tag matches, case-insensitively. *)
Fixpoint first_match (meta : Bs4.node) (table : list (meta_attr * string * string))
  : option string :=
  match table with
  | [] => None
  | e :: table' => if meta_matches meta e then Some e.2 else first_match meta table'
  end.

Definition meta_key (meta : Bs4.node) : option string :=
  first_match meta meta_table.

(** The meta tags of a soup that count for [field], in document order. *)
Definition metas_for (field : string) (soup : list Bs4.node) : list Bs4.node :=
  filter (λ m, meta_key m = Some field) (Bs4.find_all "meta" soup).

(** The record of a link: its two flags are computed from the network
    location of its resolved URL and that of the page. *)
Definition link_record_of `{World} (base_domain : string) (l : value) : Prop :=
  ∃ absolute_url text title,
    l = VDict {[ "url" := VStr absolute_url;
                 "text" := VStr text;
                 "title" := VStr title;
                 "is_internal" :=
                   VBool (bool_decide (urlparse_netloc absolute_url = base_domain));
                 "is_external" :=
                   VBool (bool_decide (urlparse_netloc absolute_url ≠ base_domain)
                          && bool_decide (urlparse_netloc absolute_url ≠ "")) ]}.

(** The chunks that the fallback keeps of a list of pieces: each piece
    trimmed, the empty ones dropped. *)
Definition chunks_of (pieces : list string) : list string :=
  filter (λ chunk, chunk ≠ "") (Py.strip <$> pieces).

Definition SP : Ascii.ascii := Ascii.ascii_of_nat 32.

(** After the words of the specification, to be compared with
    [Py.split "  "]: the pieces of a line between its runs of two or more
    spaces.  [in_run] tells that the scan is inside such a run. *)
Fixpoint split_runs (in_run : bool) (s : string) : list string :=
  match s with
  | "" => [""]
  | String c s' =>
      if Ascii.eqb c SP then
        if in_run then split_runs true s'
        else
          match s' with
          | String c' _ =>
              if Ascii.eqb c' SP then "" :: split_runs true s'
              else Py.push_char c (split_runs false s')
          | "" => Py.push_char c (split_runs false s')
          end
      else Py.push_char c (split_runs false s')
  end.

Definition split_on_space_runs (line : string) : list string :=
  split_runs false line.

(** Two lists of pieces with the same first piece and the same chunks
    after it. *)
Definition same_head (l1 l2 : list string) : Prop :=
  ∃ h t1 t2, l1 = h :: t1 ∧ l2 = h :: t2 ∧ chunks_of t1 = chunks_of t2.

(** What holds of the scheduler in every state of a run of [n] tasks
    under [max_concurrent] permits: a task is waiting, running, or has its
    own outcome in its own slot. *)
Definition sched_inv (task : nat → M dict) (n max_concurrent : nat)
    (s : WebFetchMCP.sched) : Prop :=
  length (WebFetchMCP.slots s) = n ∧
  NoDup (WebFetchMCP.waiting s ++ WebFetchMCP.running s) ∧
  (∀ i, i ∈ WebFetchMCP.waiting s ++ WebFetchMCP.running s → (i < n)%nat) ∧
  (∀ i, (i < n)%nat →
        i ∈ WebFetchMCP.waiting s ++ WebFetchMCP.running s ∨
        WebFetchMCP.slots s !! i = Some (Some (task i))) ∧
  (WebFetchMCP.permits s + length (WebFetchMCP.running s) = max_concurrent)%nat.

(** The number of events that a state still has to go through. *)
Definition sched_todo (s : WebFetchMCP.sched) : nat :=
  2 * length (WebFetchMCP.waiting s) + length (WebFetchMCP.running s).

(** The entry of the [results] list for one gathered outcome. *)
Definition result_entry `{World} (r : M dict) : value :=
  match r with
  | inr d => VDict d
  | inl e => VDict {[ "error" := VStr (str_exn e) ]}
  end.

(** The outcome of the [i]-th task of a batch, and the interleavings
    that its tasks can follow from the start ([es] need not be complete). *)
Definition batch_task `{World} (args : batch_args) (i : nat) : M dict :=
  default (raise (OtherException ""))
          ((WebFetchMCP.fetch_single args <$> ba_urls args) !! i).

Definition batch_run `{World} (args : batch_args) (es : list WebFetchMCP.event)
  : option WebFetchMCP.sched :=
  WebFetchMCP.sched_run (batch_task args)
    (WebFetchMCP.sched_init (length (ba_urls args))
       (Z.to_nat (default 5 (ba_max_concurrent args)))) es.

(** The record that the loop of [_extract_links] appends for an anchor of
    the page at [url]. *)
Definition link_info `{World} (url : string) (link : Bs4.node) : value :=
  let absolute_url := urljoin url (Bs4.get link "href" "") in
  let link_domain := urlparse_netloc absolute_url in
  VDict {[ "url" := VStr absolute_url;
           "text" := VStr (Bs4.get_text_strip link);
           "title" := VStr (Bs4.get link "title" "");
           "is_internal" := VBool (bool_decide (link_domain = urlparse_netloc url));
           "is_external" :=
             VBool (bool_decide (link_domain ≠ urlparse_netloc url)
                    && bool_decide (link_domain ≠ "")) ]}.

(** Whether the loop keeps an anchor: it is not a fragment reference that
    is skipped, and it passes the filters that are set. *)
Definition link_kept `{World} (url : string)
    (filter_internal filter_external include_anchors : bool)
    (link : Bs4.node) : bool :=
  (include_anchors || negb (Py.startswith (Bs4.get link "href" "") "#"))
  && (negb filter_internal || field_true "is_internal" (link_info url link))
  && (negb filter_external || field_true "is_external" (link_info url link)).

(** The anchors of [soup] that carry an [href], in document order. *)
Definition anchors (soup : list Bs4.node) : list Bs4.node :=
  Bs4.find_all_with "a" "href" soup.

(** A string without line boundary. *)
Fixpoint one_line (s : string) : bool :=
  match s with
  | "" => true
  | String c s' => negb (Py.is_linebreak c) && one_line s'
  end.

(** The server has no open session: the next [_get_session] creates one. *)
Definition needs_session (srv : Session.server) : nat :=
  match Session.current srv with
  | Some s => if Session.closed s then 1 else 0
  | None => 1
  end.

Definition is_cleanup (c : Session.call) : bool :=
  match c with Session.Cleanup => true | _ => false end.

(* ===================================================================== *)
(** * An example world *)
(* ===================================================================== *)

(** A small site on which the properties are exercised.  Each page is
    given with the tree that the HTML parser builds for it. *)
Module Example.

Definition html_hello : string :=
  "<html><body><script>x</script><p>Hello  World</p></body></html>".

Definition soup_hello : list Bs4.node :=
  [Bs4.Tag "html" ∅
     [Bs4.Tag "body" ∅
        [Bs4.Tag "script" ∅ [Bs4.NavigableString "x"];
         Bs4.Tag "p" ∅ [Bs4.NavigableString "Hello  World"]]]].

Definition html_meta : string :=
  "<html><head><meta name='description' content='first'><meta name='Description' content='second'><meta property='og:title'></head><body></body></html>".

Definition soup_meta : list Bs4.node :=
  [Bs4.Tag "html" ∅
     [Bs4.Tag "head" ∅
        [Bs4.Tag "meta" {[ "name" := "description"; "content" := "first" ]} [];
         Bs4.Tag "meta" {[ "name" := "Description"; "content" := "second" ]} [];
         Bs4.Tag "meta" {[ "property" := "og:title" ]} []];
      Bs4.Tag "body" ∅ []]].

Definition html_links : string :=
  "<html lang='en'><head><title> Links </title></head><body><a href='/x'>X</a><a href='https://b.com/y'>Y</a><a href='#frag'>F</a><a href='mailto:me@a.com'>M</a></body></html>".

Definition soup_links : list Bs4.node :=
  [Bs4.Tag "html" {[ "lang" := "en" ]}
     [Bs4.Tag "head" ∅ [Bs4.Tag "title" ∅ [Bs4.NavigableString " Links "]];
      Bs4.Tag "body" ∅
        [Bs4.Tag "a" {[ "href" := "/x" ]} [Bs4.NavigableString "X"];
         Bs4.Tag "a" {[ "href" := "https://b.com/y" ]} [Bs4.NavigableString "Y"];
         Bs4.Tag "a" {[ "href" := "#frag" ]} [Bs4.NavigableString "F"];
         Bs4.Tag "a" {[ "href" := "mailto:me@a.com" ]} [Bs4.NavigableString "M"]]]].

Definition html_words : string := "<p>Hello hello</p>".

Definition soup_words : list Bs4.node :=
  [Bs4.Tag "p" ∅ [Bs4.NavigableString "Hello hello"]].

Definition page (body : string) : M response :=
  ret {| status := 200; reason := "OK"; real_url := "";
         headers := {[ "content-type" := "text/html" ]};
         text := ret body |}.

Definition error_page (code : Z) (why : string) : M response :=
  ret {| status := code; reason := why; real_url := "";
         headers := ∅; text := ret "" |}.

Definition get (url : string) : M response :=
  if decide (url = "https://a.com/hello") then page html_hello
  else if decide (url = "https://a.com/meta") then page html_meta
  else if decide (url = "https://a.com/p") then page html_links
  else if decide (url = "https://a.com/words") then page html_words
  else if decide (url = "https://a.com/missing") then error_page 404 "Not Found"
  else if decide (url = "https://a.com/cached") then error_page 304 "Not Modified"
  else raise (ClientConnectionError "Cannot connect to host").

Definition parse (html : string) : list Bs4.node :=
  if decide (html = html_hello) then soup_hello
  else if decide (html = html_meta) then soup_meta
  else if decide (html = html_links) then soup_links
  else if decide (html = html_words) then soup_words
  else [].

(** The heuristic extractor finds the text of the last page only. *)
Definition extract (html : string) : option string :=
  if decide (html = html_words) then Some "Hello hello" else None.

(** The references of the pages above, resolved against the page's URL. *)
Definition join (base href : string) : string :=
  if String.prefix "/" href then "https://a.com" +:+ href
  else if String.prefix "#" href then base +:+ href
  else href.

Definition SLASH : Ascii.ascii := Ascii.ascii_of_nat 47.

(** The network location after ["https://"], up to the next ["/"]. *)
Fixpoint until_slash (s : string) : string :=
  match s with
  | "" => ""
  | String c s' => if Ascii.eqb c SLASH then "" else String c (until_slash s')
  end.

Definition netloc (url : string) : string :=
  if String.prefix "https://" url
  then until_slash (String.substring 8 (String.length url) url)
  else "".

#[export] Instance world : World :=
  {| session_get := get;
     trafilatura_extract := extract;
     BeautifulSoup := parse;
     urljoin := join;
     urlparse_netloc := netloc;
     repr := λ s, "'" +:+ s +:+ "'" |}.

(** The links of the page https://a.com/p: one internal, one external, one
    with no network location; the fragment reference is skipped. *)
Definition links_of_p : dict :=
  match WebFetchMCP._extract_links (H := world)
          {| la_url := "https://a.com/p"; la_filter_internal := None;
             la_filter_external := None; la_include_anchors := None |} with
  | inr d => d
  | inl _ => ∅
  end.

(** A batch of three pages, the second of which is missing, fetched one
  at a time. *)
Definition batch : batch_args :=
  {| ba_urls := ["https://a.com/words"; "https://a.com/missing";
                 "https://a.com/hello"];
     ba_extract_content := None; ba_include_metadata := Some false;
     ba_max_concurrent := Some 1; ba_timeout := None |}.

Definition outcome (url : string) : dict :=
  match WebFetchMCP.fetch_single (H := world) batch url with
  | inr d => d
  | inl _ => ∅
  end.

(** A call with no argument, and one of [fetch_webpage] for the missing
    page. *)
Definition no_arguments : WebFetchMCP.arguments :=
  {| WebFetchMCP.arg_url := None; WebFetchMCP.arg_urls := None;
     WebFetchMCP.arg_extract_content := None;
     WebFetchMCP.arg_include_metadata := None;
     WebFetchMCP.arg_timeout := None; WebFetchMCP.arg_max_concurrent := None;
     WebFetchMCP.arg_search_terms := None;
     WebFetchMCP.arg_case_sensitive := None;
     WebFetchMCP.arg_context_chars := None;
     WebFetchMCP.arg_filter_internal := None;
     WebFetchMCP.arg_filter_external := None;
     WebFetchMCP.arg_include_anchors := None |}.

Definition missing_page : WebFetchMCP.arguments :=
  {| WebFetchMCP.arg_url := Some "https://a.com/missing";
     WebFetchMCP.arg_urls := None;
     WebFetchMCP.arg_extract_content := None;
     WebFetchMCP.arg_include_metadata := None;
     WebFetchMCP.arg_timeout := None; WebFetchMCP.arg_max_concurrent := None;
     WebFetchMCP.arg_search_terms := None;
     WebFetchMCP.arg_case_sensitive := None;
     WebFetchMCP.arg_context_chars := None;
     WebFetchMCP.arg_filter_internal := None;
     WebFetchMCP.arg_filter_external := None;
     WebFetchMCP.arg_include_anchors := None |}.

(** A printer that shows the keys of the dictionary only. *)
Definition dumps (d : dict) : string :=
  "{" +:+ Py.join ", " ((λ kv, kv.1) <$> map_to_list d) +:+ "}".

(** The text of a [starlette] exception. *)
Definition str_http_exception (status_code : Z) (detail : string) : string :=
  Py.str_of_int status_code +:+ ": " +:+ detail.

(** The page of words, fetched for a search, and the internal links of the
    page of links. *)
Definition words_page : dict :=
  match WebFetchMCP._fetch_webpage (H := world)
          {| fa_url := "https://a.com/words"; fa_extract_content := Some true;
             fa_include_metadata := Some false; fa_timeout := None |} with
  | inr d => d
  | inl _ => ∅
  end.

Definition internal_links_of_p : dict :=
  match WebFetchMCP._extract_links (H := world)
          {| la_url := "https://a.com/p"; la_filter_internal := Some true;
             la_filter_external := None; la_include_anchors := None |} with
  | inr d => d
  | inl _ => ∅
  end.

End Example.
(* ===================================================================== *)
(** * Properties *)
(* ===================================================================== *)

(** ** Facts about Python strings *)

Lemma occurs_at_le t s p : occurs_at t s p = true → (p ≤ String.length s)%nat.
Proof.
  revert s; induction p as [|p IH]; intros s Hp; [lia|].
  destruct s as [|c s]; simpl in *; [done|]. apply IH in Hp. lia.
Qed.

Lemma index_Some t s n m :
  String.index n t s = Some m →
  (n ≤ m)%nat ∧ occurs_at t s m = true ∧
  ∀ p, (n ≤ p < m)%nat → occurs_at t s p = false.
Proof.
  revert n m; induction s as [|b s IH]; intros n m Hi; cbn [String.index] in Hi.
  - destruct n; [|done]. destruct t; simplify_eq.
    split; [lia|]. split; [done|]. intros; lia.
  - destruct n as [|n].
    + destruct (String.prefix t (String b s)) eqn:Hp.
      * simplify_eq. split; [lia|]. split; [exact Hp|]. intros; lia.
      * destruct (String.index 0 t s) as [k|] eqn:Hi'; simplify_eq.
        destruct (IH _ _ Hi') as (?&?&Hlt).
        split; [lia|]. split; [done|].
        intros [|p] ?; cbn [occurs_at]; [exact Hp|]. apply Hlt; lia.
    + destruct (String.index n t s) as [k|] eqn:Hi'; simplify_eq.
      destruct (IH _ _ Hi') as (?&?&Hlt).
      split; [lia|]. split; [done|].
      intros [|p] ?; cbn [occurs_at]; [lia|]. apply Hlt; lia.
Qed.

Lemma index_None t s n :
  String.index n t s = None → ∀ p, (n ≤ p)%nat → occurs_at t s p = false.
Proof.
  revert n; induction s as [|b s IH]; intros n Hi p Hp; cbn [String.index] in Hi.
  - destruct p as [|p]; cbn [occurs_at]; [|done].
    destruct n; [|lia]. by destruct t.
  - destruct n as [|n].
    + destruct (String.prefix t (String b s)) eqn:Hpre; [done|].
      destruct (String.index 0 t s) eqn:Hi'; [done|].
      destruct p as [|p]; cbn [occurs_at]; [exact Hpre|]. eapply IH; [done|lia].
    + destruct (String.index n t s) eqn:Hi'; [done|].
      destruct p as [|p]; cbn [occurs_at]; [lia|]. eapply IH; [done|lia].
Qed.

Lemma find_nat s t (n : nat) :
  Py.find s t (Z.of_nat n) =
  match String.index n t s with Some p => Z.of_nat p | None => -1 end.
Proof.
  unfold Py.find. destruct (Z.ltb_spec (Z.of_nat n) 0); [lia|].
  by rewrite Nat2Z.id.
Qed.

Lemma filter_seq_nil (P : nat → bool) from k :
  (∀ p, (from ≤ p < from + k)%nat → P p = false) →
  filter (λ p, P p) (seq from k) = [].
Proof.
  revert from; induction k as [|k IH]; intros from HP; [done|].
  simpl. rewrite filter_cons_False.
  - apply IH. intros p ?. apply HP. lia.
  - rewrite HP; [simpl; tauto|lia].
Qed.

Lemma occurrences_cut t s from m :
  (from ≤ m)%nat →
  occurs_at t s m = true →
  (∀ p, (from ≤ p < m)%nat → occurs_at t s p = false) →
  occurrences t s from = m :: occurrences t s (S m).
Proof.
  intros Hle Hm Hno. pose proof (occurs_at_le _ _ _ Hm) as Hlen.
  unfold occurrences.
  replace (S (String.length s) - from)%nat
    with ((m - from) + S (S (String.length s) - S m))%nat by lia.
  rewrite seq_app, filter_app, filter_seq_nil.
  - replace (from + (m - from))%nat with m by lia.
    simpl. rewrite filter_cons_True; [done|]. by rewrite Hm.
  - intros p ?. apply Hno. lia.
Qed.

Lemma occurrences_nil t s from :
  (∀ p, (from ≤ p)%nat → occurs_at t s p = false) → occurrences t s from = [].
Proof. intros Hno. apply filter_seq_nil. intros p ?. apply Hno. lia. Qed.

Lemma prefix_length t s :
  String.prefix t s = true → (String.length t ≤ String.length s)%nat.
Proof.
  revert s; induction t as [|a t IH]; intros [|b s] Hp; simpl in *;
    try lia; try done.
  destruct (Ascii.ascii_dec a b); [|done]. apply IH in Hp. lia.
Qed.

Lemma occurs_at_fits t s p :
  occurs_at t s p = true → (p + String.length t ≤ String.length s)%nat.
Proof.
  revert s; induction p as [|p IH]; intros s Hp.
  - change (String.prefix t s = true) in Hp. by apply prefix_length in Hp.
  - destruct s as [|c s]; [done|].
    change (occurs_at t s p = true) in Hp. apply IH in Hp. simpl. lia.
Qed.

Lemma substring_length s n m :
  (n + m ≤ String.length s)%nat → String.length (String.substring n m s) = m.
Proof.
  revert n m; induction s as [|c s IH]; intros [|n] [|m] Hl; simpl in *;
    try lia; try done; try f_equal; apply IH; lia.
Qed.

(** ** The search scan *)

Section search_properties.
Context `{World}.
Import WebFetchMCP.

(** The loop for one term returns, given fuel for one pass over the
    content, and appends a record for every occurrence from [start] on. *)
Lemma scan_term_spec content sc cc term fuel (start : nat) matches :
  (S (String.length sc) - start < fuel)%nat →
  scan_term fuel content sc cc term (Z.of_nat start) matches
  = Some (matches ++ (match_at content cc term <$> occurrences term sc start)).
Proof.
  revert start matches; induction fuel as [|fuel IH]; intros start matches Hf;
    [lia|].
  cbn [scan_term]. rewrite find_nat.
  destruct (String.index start term sc) as [m|] eqn:Hi.
  - destruct (index_Some _ _ _ _ Hi) as (Hle & Hocc & Hno).
    pose proof (occurs_at_le _ _ _ Hocc).
    destruct (Z.eqb_spec (Z.of_nat m) (-1)); [lia|].
    replace (Z.of_nat m + 1) with (Z.of_nat (S m)) by lia.
    rewrite IH by lia.
    rewrite (occurrences_cut term sc start m Hle Hocc Hno).
    by rewrite fmap_cons, <-app_assoc.
  - rewrite occurrences_nil by eauto using index_None.
    by rewrite app_nil_r.
Qed.

Lemma scan_terms_spec content sc cc terms matches :
  scan_terms content sc cc terms matches
  = Some (matches ++
          flat_map (λ term, match_at content cc term <$> occurrences term sc 0)
                   terms).
Proof.
  revert matches; induction terms as [|term terms IH]; intros matches;
    cbn [scan_terms flat_map].
  - by rewrite app_nil_r.
  - rewrite (scan_term_spec _ _ _ _ _ 0) by lia.
    by rewrite IH, <-app_assoc.
Qed.

Lemma search_spec content terms cs cc :
  search content terms cs cc
  = Some (flat_map
            (λ term, match_at content cc term
                       <$> occurrences term (searched cs content) 0)
            (if cs then terms else Py.lower <$> terms)).
Proof.
  unfold search, searched. destruct cs; cbn [negb]; by rewrite scan_terms_spec.
Qed.

End search_properties.

Section search_claims.
Context `{World}.
Import WebFetchMCP.

Lemma field_match_term term pos ctx cs ce :
  field "term" (search_match term pos ctx cs ce) = Some (VStr term).
Proof. done. Qed.

Lemma field_match_position term pos ctx cs ce :
  field "position" (search_match term pos ctx cs ce) = Some (VInt pos).
Proof. done. Qed.

(** C4.  For every content and every list of terms the scan returns, and
    for each term it reports, in increasing order, exactly the offsets at
    which the term occurs in the scanned string: after a hit at [pos] the
    loop looks again from [pos + 1], so occurrences that overlap are all
    found.  In the content "aaa" the term "aa" (case-sensitive) has exactly
    two matches, at offsets 0 and 1. *)
Theorem search_finds_overlapping_occurrences :
  (∀ fuel content sc cc term start matches,
     let pos := Py.find sc term start in
     pos ≠ -1 →
     ∃ m, field "position" m = Some (VInt pos) ∧
          scan_term (S fuel) content sc cc term start matches
          = scan_term fuel content sc cc term (pos + 1) (matches ++ [m]))
  ∧ (∀ content terms case_sensitive context_chars,
       ∃ matches,
         search content terms case_sensitive context_chars = Some matches ∧
         (λ m, (field "term" m, field "position" m)) <$> matches
         = flat_map
             (λ term, (λ p, (Some (VStr term), Some (VInt (Z.of_nat p))))
                        <$> occurrences term (searched case_sensitive content) 0)
             (if case_sensitive then terms else Py.lower <$> terms))
  ∧ (∀ context_chars,
       ∃ m0 m1,
         search "aaa" ["aa"] true context_chars = Some [m0; m1] ∧
         field "position" m0 = Some (VInt 0) ∧
         field "position" m1 = Some (VInt 1)).
Proof.
  split; [|split].
  - intros fuel content sc cc term start matches pos Hpos.
    eexists. split; [apply field_match_position|].
    cbn [scan_term]. fold pos.
    by destruct (Z.eqb_spec pos (-1)).
  - intros content terms cs cc. eexists. split; [apply search_spec|].
    generalize (if cs then terms else Py.lower <$> terms) as ts.
    induction ts as [|t ts IH]; [done|].
    cbn [flat_map]. rewrite fmap_app, IH. f_equal.
    by induction (occurrences t (searched cs content) 0) as [|p ps IHp];
      [|cbn [fmap list_fmap]; rewrite <-IHp].
  - intros cc. exists (match_at "aaa" cc "aa" 0), (match_at "aaa" cc "aa" 1).
    split; [|split; reflexivity].
    rewrite search_spec. cbn [flat_map searched].
    by replace (occurrences "aa" "aaa" 0) with [0%nat; 1%nat] by (by vm_compute).
Qed.

Lemma slice_inside content a b :
  0 ≤ a → a ≤ b → b ≤ Py.len content →
  Py.slice content a b = String.substring (Z.to_nat a) (Z.to_nat (b - a)) content
  ∧ Py.len (Py.slice content a b) = b - a.
Proof.
  intros Ha Hab Hb. unfold Py.slice, Py.slice_bound.
  destruct (Z.ltb_spec a 0); [lia|]. destruct (Z.ltb_spec b 0); [lia|].
  rewrite !Z.min_l by lia. split; [done|].
  unfold Py.len in *. rewrite substring_length; lia.
Qed.

Lemma field_match_context term pos ctx cs ce :
  field "context" (search_match term pos ctx cs ce) = Some (VStr ctx).
Proof. done. Qed.

Lemma field_match_context_start term pos ctx cs ce :
  field "context_start" (search_match term pos ctx cs ce) = Some (VInt cs).
Proof. done. Qed.

Lemma field_match_context_end term pos ctx cs ce :
  field "context_end" (search_match term pos ctx cs ce) = Some (VInt ce).
Proof. done. Qed.

(** C5.  Every match of the result is the record of an occurrence of one
    of the terms at an offset [pos] of the scanned string, and its fields
    are: [position = pos], [context_start = max(0, pos - context_chars // 2)],
    [context_end = min(len(content), pos + len(term) + context_chars // 2)]
    and, as [context], the slice of the original content (not of its
    lower-cased copy) between these two bounds.  Both bounds lie within the
    content.  Whenever the occurrence lies within the original content,
    which it always does in a case-sensitive search, and the budget is not
    negative, the window contains the match and is the substring of
    [context_end - context_start] characters that starts at
    [context_start]. *)
Theorem search_context_window content terms case_sensitive context_chars :
  ∃ matches,
    search content terms case_sensitive context_chars = Some matches ∧
    ∀ m, m ∈ matches →
      ∃ term pos,
        let L := Py.len term in
        let context_start := Z.max 0 (pos - context_chars `div` 2) in
        let context_end :=
          Z.min (Py.len content) (pos + L + context_chars `div` 2) in
        let context := Py.slice content context_start context_end in
        term ∈ (if case_sensitive then terms else Py.lower <$> terms) ∧
        occurs_at term (searched case_sensitive content) (Z.to_nat pos) = true ∧
        0 ≤ pos ∧
        field "term" m = Some (VStr term) ∧
        field "position" m = Some (VInt pos) ∧
        field "context" m = Some (VStr context) ∧
        field "context_start" m = Some (VInt context_start) ∧
        field "context_end" m = Some (VInt context_end) ∧
        0 ≤ context_start ∧ context_end ≤ Py.len content ∧
        (case_sensitive = true → pos + L ≤ Py.len content) ∧
        (pos + L ≤ Py.len content → 0 ≤ context_chars →
           context_start ≤ pos ∧ pos + L ≤ context_end ∧
           context = String.substring (Z.to_nat context_start)
                       (Z.to_nat (context_end - context_start)) content ∧
           Py.len context = context_end - context_start).
Proof.
  eexists. split; [apply search_spec|].
  intros m Hm. apply list_elem_of_In, in_flat_map in Hm as (term & Hterm & Hm).
  apply list_elem_of_In, list_elem_of_fmap in Hm as (p & -> & Hp).
  apply list_elem_of_filter in Hp as [Hocc _].
  apply Is_true_true in Hocc.
  exists term, (Z.of_nat p). cbn zeta. rewrite Nat2Z.id.
  split; [by apply list_elem_of_In|]. split; [done|]. split; [lia|].
  split; [reflexivity|]. split; [reflexivity|].
  split; [reflexivity|].
  split; [reflexivity|].
  split; [reflexivity|].
  split; [lia|]. split; [lia|]. split.
  - intros ->. pose proof (occurs_at_fits _ _ _ Hocc) as Hfit.
    cbn [searched] in Hfit. unfold Py.len. lia.
  - intros Hfit Hcc.
    assert (0 ≤ context_chars `div` 2) by (apply Z.div_pos; lia).
    split; [lia|]. split; [unfold Py.len in *; lia|].
    apply slice_inside; unfold Py.len in *; lia.
Qed.

(** The [term] of a match is one of the terms that were looked for. *)
Lemma search_match_terms content terms case_sensitive context_chars :
  ∃ matches,
    search content terms case_sensitive context_chars = Some matches ∧
    ∀ m, m ∈ matches →
      ∃ term, term ∈ (if case_sensitive then terms else Py.lower <$> terms) ∧
              field "term" m = Some (VStr term).
Proof.
  eexists. split; [apply search_spec|].
  intros m Hm. apply list_elem_of_In, in_flat_map in Hm as (term & Hterm & Hm).
  apply list_elem_of_In, list_elem_of_fmap in Hm as (p & -> & _).
  exists term. split; [by apply list_elem_of_In|]. apply field_match_term.
Qed.

(** C9.  When the page has been fetched and the search is not
    case-sensitive, the response echoes the caller's terms as they were
    given, while the [term] of every match is the lower-cased form of one
    of them. *)
Theorem search_terms_casing args webpage_result :
  default false (sa_case_sensitive args) = false →
  _fetch_webpage {| fa_url := sa_url args; fa_extract_content := Some true;
                    fa_include_metadata := Some false; fa_timeout := None |}
    = inr webpage_result →
  has_key webpage_result "error" = false →
  ∃ response matches,
    _search_webpage_content args = Some (inr response) ∧
    response !! "search_terms" = Some (VList (VStr <$> sa_search_terms args)) ∧
    response !! "matches" = Some (VList matches) ∧
    ∀ m, m ∈ matches →
      ∃ term, term ∈ sa_search_terms args ∧
              field "term" m = Some (VStr (Py.lower term)).
Proof.
  intros Hcs Hfetch Herr. unfold _search_webpage_content.
  rewrite Hfetch, Herr, Hcs.
  set (content := match webpage_result !! "content" with
                  | Some (VStr c) => c | _ => "" end).
destruct (search_match_terms content (sa_search_terms args) false
              (default 200 (sa_context_chars args))) as (matches & -> & Hall).
  eexists _, matches. split; [done|]. split; [done|]. split; [done|].
  intros m Hm. destruct (Hall m Hm) as (term & Hterm & Hfield).
  apply list_elem_of_fmap in Hterm as (t & -> & Ht).
  by exists t.
Qed.

End search_claims.


(** ** Fetching one page *)

Section fetch_properties.
Context `{World}.
Import WebFetchMCP.

Lemma raise_for_status_ok r : status r < 400 → raise_for_status r = ret tt.
Proof. unfold raise_for_status. by destruct (Z.leb_spec 400 (status r)); [lia|]. Qed.


(** The text that a successful fetch reports as [content]. *)
Lemma fetch_webpage_ok args r html :
  session_get (fa_url args) = inr r →
  status r < 400 →
  text r = inr html →
  ∃ d, _fetch_webpage args = inr d ∧
       d !! "error" = None ∧
       d !! "url" = Some (VStr (fa_url args)) ∧
       d !! "status_code" = Some (VInt (status r)) ∧
       d !! "content_length" = Some (VInt (Py.len html)) ∧
       d !! "content" =
         (if default true (fa_extract_content args)
          then Some (VStr (default (fallback_content html)
                                   (truthy (trafilatura_extract html))))
          else None) ∧
       d !! "raw_html" =
         (if default true (fa_extract_content args) then None
          else Some (VStr html)) ∧
       d !! "metadata" =
         (if default true (fa_include_metadata args)
          then Some (VDict (VStr <$> _extract_metadata html (fa_url args)))
          else None).
Proof.
  intros Hget Hst Htext. unfold _fetch_webpage.
  rewrite Hget. cbn [bind try_except]. rewrite raise_for_status_ok by done.
  cbn [bind ret]. rewrite Htext. cbn [bind try_except ret].
  eexists. split; [reflexivity|].
  destruct (default true (fa_extract_content args)),
           (default true (fa_include_metadata args)),
           (truthy (trafilatura_extract html)); repeat split; reflexivity.
Qed.


Lemma fetch_webpage_cases args :
  (∃ e, _fetch_webpage args = inr (failure "url" (fa_url args) e)) ∨
  (∃ r html, session_get (fa_url args) = inr r ∧ status r < 400 ∧
             text r = inr html).
Proof.
  unfold _fetch_webpage.
  destruct (session_get (fa_url args)) as [e|r] eqn:Hget; cbn [bind try_except].
  { left. by exists e. }
  unfold raise_for_status. destruct (Z.leb_spec 400 (status r)); cbn [bind raise ret].
  { left. by eexists. }
  destruct (text r) as [e|html] eqn:Htext; cbn [bind try_except].
  { left. by exists e. }
  right. by exists r, html.
Qed.

Lemma has_key_None (d : dict) key : d !! key = None → has_key d key = false.
Proof. intros Hd. unfold has_key. rewrite Hd. by apply bool_decide_eq_false_2, is_Some_None. Qed.

Lemma has_key_Some (d : dict) key v : d !! key = Some v → has_key d key = true.
Proof. intros Hd. unfold has_key. rewrite Hd. by apply bool_decide_eq_true_2. Qed.

(** [_fetch_webpage] returns a dictionary, whatever happens. *)
Lemma fetch_webpage_returns args : ∃ d, _fetch_webpage args = inr d.
Proof.
  destruct (fetch_webpage_cases args) as [[e He]|(r & html & Hg & Hs & Ht)];
    [by eexists|].
  destruct (fetch_webpage_ok args r html) as (d & Hd & _); by eauto.
Qed.


End fetch_properties.

(** ** Metadata *)

Section metadata_properties.
Context `{World}.
Import WebFetchMCP.

Lemma meta_step_key metadata meta :
  meta_step metadata meta
  = match meta_key meta with
    | Some field => <[field := Bs4.get meta "content" ""]> metadata
    | None => metadata
    end.
Proof.
  unfold meta_step, meta_key, meta_table.
  cbn [first_match meta_matches fst snd].
  generalize (Py.lower (Bs4.get meta "name" "")) as name.
  generalize (Py.lower (Bs4.get meta "property" "")) as property_name.
  intros property_name name.
  rewrite !decide_bool_decide.
  repeat (match goal with |- context [bool_decide ?P] =>
            destruct (bool_decide P); [reflexivity|] end).
  reflexivity.
Qed.

Lemma first_match_field meta table field :
  first_match meta table = Some field → field ∈ (λ e, e.2) <$> table.
Proof.
  induction table as [|e table IH]; [done|]. cbn [first_match].
  destruct (meta_matches meta e).
  - intros [= <-]. apply list_elem_of_here.
  - intros Hf. apply list_elem_of_further. by apply IH.
Qed.

Lemma meta_key_field meta field : meta_key meta = Some field → field ∈ meta_fields.
Proof. apply first_match_field. Qed.

(** After the loop a field holds the content of the last tag that counts
    for it. *)
Lemma foldl_meta_step_lookup metas metadata field :
  foldl meta_step metadata metas !! field
  = match last (filter (λ m, meta_key m = Some field) metas) with
    | Some m => Some (Bs4.get m "content" "")
    | None => metadata !! field
    end.
Proof.
  revert metadata; induction metas as [|m metas IH]; intros metadata; [done|].
  cbn [foldl]. rewrite IH, meta_step_key.
  destruct (decide (meta_key m = Some field)) as [Hm|Hm].
  - rewrite filter_cons_True by done.
    destruct (filter _ metas) as [|m' l] eqn:Hl.
    + rewrite Hm. cbn [last]. by rewrite lookup_insert_eq.
    + rewrite (last_cons m).
      destruct (last (m' :: l)) eqn:Hlast; [done|]. by apply last_None in Hlast.
  - rewrite filter_cons_False by done.
    destruct (last _); [done|].
    destruct (meta_key m) as [k|]; [|done].
    rewrite lookup_insert_ne; [done|congruence].
Qed.

Lemma metas_for_nil field soup : field ∉ meta_fields → metas_for field soup = [].
Proof.
  intros Hf. unfold metas_for.
  induction (Bs4.find_all "meta" soup) as [|m l IH]; [done|].
  rewrite filter_cons_False; [done|].
  intros Hm. by apply meta_key_field in Hm.
Qed.

(** What [_extract_metadata] stores under each key. *)
Lemma extract_metadata_lookup html url key :
  _extract_metadata html url !! key
  = if decide (key = "language")
    then (λ h, Bs4.get h "lang" "") <$> Bs4.find "html" (BeautifulSoup html)
    else if decide (key = "canonical_url")
    then (λ c, Bs4.get c "href" "")
           <$> Bs4.find_rel "link" "canonical" (BeautifulSoup html)
    else if decide (key = "title")
    then Some (from_option Bs4.get_text_strip ""
                 (Bs4.find "title" (BeautifulSoup html)))
    else (λ m, Bs4.get m "content" "") <$> last (metas_for key (BeautifulSoup html)).
Proof.
  unfold _extract_metadata. generalize (BeautifulSoup html) as soup. intros soup.
  set (title := match Bs4.find "title" soup with
                | Some t => Bs4.get_text_strip t | None => "" end).
  assert (from_option Bs4.get_text_strip "" (Bs4.find "title" soup) = title) as ->
    by done.
  set (md := foldl meta_step _ _).
  assert (∀ k, md !! k
               = match last (metas_for k soup) with
                 | Some m => Some (Bs4.get m "content" "")
                 | None => (<["title" := title]> ∅ : gmap string string) !! k
                 end) as Hmd by (intros; apply foldl_meta_step_lookup).
  assert (md !! "language" = None) as Hlang.
  { rewrite Hmd, metas_for_nil; [done|]. by apply (bool_decide_unpack _). }
  assert (md !! "canonical_url" = None) as Hcanon.
  { rewrite Hmd, metas_for_nil; [done|]. by apply (bool_decide_unpack _). }
  assert (md !! "title" = Some title) as Htitle.
  { rewrite Hmd, metas_for_nil; [done|]. by apply (bool_decide_unpack _). }
  assert (∀ k, k ≠ "title" →
               md !! k = (λ m, Bs4.get m "content" "") <$> last (metas_for k soup))
    as Hother.
  { intros k Hk. rewrite Hmd. destruct (last _); [done|].
    by rewrite lookup_insert_ne. }
  destruct (Bs4.find_rel "link" "canonical" soup) as [c|],
           (Bs4.find "html" soup) as [h|];
    repeat case_decide; subst;
    repeat (rewrite lookup_insert_eq || rewrite lookup_insert_ne by done); auto.
Qed.

Lemma meta_field_not_special field :
  field ∈ meta_fields →
  field ≠ "language" ∧ field ≠ "canonical_url" ∧ field ≠ "title".
Proof.
  intros Hf. repeat split; intros ->; revert Hf; by apply (bool_decide_unpack _).
Qed.

Lemma extract_metadata_meta_field html url field :
  field ∈ meta_fields →
  _extract_metadata html url !! field
  = (λ m, Bs4.get m "content" "") <$> last (metas_for field (BeautifulSoup html)).
Proof.
  intros (? & ? & ?)%meta_field_not_special.
  rewrite extract_metadata_lookup. by repeat case_decide.
Qed.

(** C2 (amended).  For each recognized field the metadata holds the content
    of the LAST meta tag, in document order, that counts for the field
    (and nothing when there is none).  A tag counts for the field of the
    first entry of [meta_table] that it matches, its [name] or [property]
    being compared in lower case. *)
Theorem metadata_last_occurrence_wins html url field :
  field ∈ meta_fields →
  _extract_metadata html url !! field
  = (λ m, Bs4.get m "content" "") <$> last (metas_for field (BeautifulSoup html)).
Proof. apply extract_metadata_meta_field. Qed.

(** C8 (amended).  [title] is always in the mapping, and is the empty
    string when the document has no title element.  Each of the other
    fields is left out exactly when the document has no element for it: no
    meta tag that counts for the field, no link with rel canonical, no html
    element.  When the element is there without its attribute ([content],
    [href], [lang]) the field is in the mapping with the empty string.  The
    mapping has no other keys. *)
Theorem metadata_field_presence html url :
  let soup := BeautifulSoup html in
  let metadata := _extract_metadata html url in
  metadata !! "title"
    = Some (from_option Bs4.get_text_strip "" (Bs4.find "title" soup)) ∧
  (∀ field, field ∈ meta_fields →
     (metadata !! field = None ↔ metas_for field soup = []) ∧
     (∀ m, last (metas_for field soup) = Some m →
           Bs4.attrs m !! "content" = None → metadata !! field = Some "")) ∧
  (metadata !! "canonical_url" = None
     ↔ Bs4.find_rel "link" "canonical" soup = None) ∧
  (∀ c, Bs4.find_rel "link" "canonical" soup = Some c →
        Bs4.attrs c !! "href" = None → metadata !! "canonical_url" = Some "") ∧
  (metadata !! "language" = None ↔ Bs4.find "html" soup = None) ∧
  (∀ h, Bs4.find "html" soup = Some h →
        Bs4.attrs h !! "lang" = None → metadata !! "language" = Some "") ∧
  (∀ key, is_Some (metadata !! key) →
          key ∈ "title" :: "canonical_url" :: "language" :: meta_fields).
Proof.
  intros soup metadata. subst soup metadata.
  split; [by rewrite extract_metadata_lookup|].
  split.
  { intros field Hf. rewrite extract_metadata_meta_field by done.
    split.
    - rewrite fmap_None, last_None. done.
    - intros m -> Hc. cbn. unfold Bs4.get. by rewrite Hc. }
  rewrite !extract_metadata_lookup. repeat case_decide; try done.
  split; [by rewrite fmap_None|].
  split; [intros c -> Hc; cbn; unfold Bs4.get; by rewrite Hc|].
  split; [by rewrite fmap_None|].
  split; [intros h -> Hh; cbn; unfold Bs4.get; by rewrite Hh|].
  intros key [v Hv]. rewrite extract_metadata_lookup in Hv.
  destruct (decide (key = "language")) as [->|];
    [do 2 apply list_elem_of_further; apply list_elem_of_here|].
  destruct (decide (key = "canonical_url")) as [->|];
    [apply list_elem_of_further, list_elem_of_here|].
  destruct (decide (key = "title")) as [->|]; [apply list_elem_of_here|].
  apply fmap_Some in Hv as (m & Hm & _).
  apply last_Some_elem_of, list_elem_of_filter in Hm as [Hm _].
  apply meta_key_field in Hm. by do 3 apply list_elem_of_further.
Qed.

End metadata_properties.

(** ** Links *)

Section links_properties.
Context `{World}.
Import WebFetchMCP.

Lemma link_step_records url base fi fe ia links link :
  Forall (link_record_of base) links →
  Forall (link_record_of base) (link_step url base fi fe ia links link).
Proof.
  intros Hl. unfold link_step.
  repeat match goal with |- context [if ?b then _ else _] => destruct b end;
    try done.
  apply Forall_app_2; [done|]. apply Forall_singleton. by eexists _, _, _.
Qed.

Lemma link_step_both_filters url base ia links link :
  link_step url base true true ia links link = links.
Proof.
  unfold link_step.
  destruct (_ && negb ia); [done|]. cbn [andb].
  destruct (bool_decide_reflect
              (urlparse_netloc (urljoin url (Bs4.get link "href" "")) = base));
    cbn [negb andb]; [|done].
  by rewrite bool_decide_eq_false_2 by tauto.
Qed.

Lemma foldl_link_step_records url base fi fe ia nodes links :
  Forall (link_record_of base) links →
  Forall (link_record_of base) (foldl (link_step url base fi fe ia) links nodes).
Proof.
  revert links; induction nodes as [|n nodes IH]; intros links Hl; [done|].
  cbn [foldl]. by apply IH, link_step_records.
Qed.

Lemma foldl_link_step_both_filters url base ia nodes links :
  foldl (link_step url base true true ia) links nodes = links.
Proof.
  revert links; induction nodes as [|n nodes IH]; intros links; [done|].
  cbn [foldl]. by rewrite link_step_both_filters.
Qed.

(** A result of [_extract_links] without an [error] lists the links that
    the loop has collected, with their counts. *)
Lemma extract_links_ok args d :
  _extract_links args = inr d →
  has_key d "error" = false →
  ∃ html,
    let links :=
      foldl (link_step (la_url args) (urlparse_netloc (la_url args))
               (default false (la_filter_internal args))
               (default false (la_filter_external args))
               (default false (la_include_anchors args)))
            [] (Bs4.find_all_with "a" "href" (BeautifulSoup html)) in
    d = {[ "source_url" := VStr (la_url args);
           "total_links" := VInt (Z.of_nat (length links));
           "internal_count" :=
             VInt (Z.of_nat (length (filter (λ l, field_true "is_internal" l) links)));
           "external_count" :=
             VInt (Z.of_nat (length (filter (λ l, field_true "is_external" l) links)));
           "links" := VList links ]}.
Proof.
  unfold _extract_links. intros Hd Herr.
  destruct (session_get (la_url args)) as [e|r]; cbn [bind try_except] in Hd.
  { injection Hd as <-. done. }
  unfold raise_for_status in Hd.
  destruct (400 <=? status r); cbn [bind raise ret try_except] in Hd.
  { injection Hd as <-. done. }
  destruct (text r) as [e|html]; cbn [bind try_except] in Hd.
  { injection Hd as <-. done. }
  injection Hd as <-. by exists html.
Qed.

Lemma link_record_flags base l :
  link_record_of base l →
  ∃ absolute_url,
    field "url" l = Some (VStr absolute_url) ∧
    field "is_internal" l
      = Some (VBool (bool_decide (urlparse_netloc absolute_url = base))) ∧
    field "is_external" l
      = Some (VBool (bool_decide (urlparse_netloc absolute_url ≠ base)
                     && bool_decide (urlparse_netloc absolute_url ≠ ""))) ∧
    field_true "is_internal" l = bool_decide (urlparse_netloc absolute_url = base) ∧
    field_true "is_external" l
      = bool_decide (urlparse_netloc absolute_url ≠ base)
        && bool_decide (urlparse_netloc absolute_url ≠ "").
Proof. intros (absolute_url & text & title & ->). by exists absolute_url. Qed.

Lemma link_record_exclusive base l :
  link_record_of base l →
  field_true "is_internal" l && field_true "is_external" l = false.
Proof.
  intros (u & _ & _ & _ & -> & ->)%link_record_flags.
  destruct (bool_decide_reflect (urlparse_netloc u = base)); cbn [andb]; [|done].
  by rewrite bool_decide_eq_false_2 by tauto.
Qed.

(** C6.  In a result of [_extract_links] every link record has both flags,
    [is_internal] telling that the network location of the resolved URL is
    that of the page and [is_external] that it is another one and not
    empty; the two are never both true, and a link without network
    location is neither (on a page that has one).  With [filter_internal]
    and [filter_external] both set, the list of links is empty. *)
Theorem links_internal_external_exclusive args d :
  _extract_links args = inr d →
  has_key d "error" = false →
  ∃ links,
    d !! "links" = Some (VList links) ∧
    (∀ l, l ∈ links →
       ∃ absolute_url is_internal is_external,
         field "url" l = Some (VStr absolute_url) ∧
         field "is_internal" l = Some (VBool is_internal) ∧
         field "is_external" l = Some (VBool is_external) ∧
         (is_internal = true
            ↔ urlparse_netloc absolute_url = urlparse_netloc (la_url args)) ∧
         (is_external = true
            ↔ urlparse_netloc absolute_url ≠ urlparse_netloc (la_url args)
              ∧ urlparse_netloc absolute_url ≠ "") ∧
         ¬ (is_internal = true ∧ is_external = true) ∧
         (urlparse_netloc absolute_url = "" →
          urlparse_netloc (la_url args) ≠ "" →
          is_internal = false ∧ is_external = false)) ∧
    (default false (la_filter_internal args) = true →
     default false (la_filter_external args) = true →
     links = []).
Proof.
  intros Hd Herr. destruct (extract_links_ok args d Hd Herr) as [html ->].
  eexists. split; [reflexivity|]. split.
  - intros l Hl.
    eapply Forall_forall in Hl; [|by apply foldl_link_step_records].
    apply link_record_flags in Hl as (u & Hu & Hi & He & _).
    exists u. eexists _, _. split; [done|]. split; [done|]. split; [done|].
    rewrite andb_true_iff, !bool_decide_eq_true.
    split; [done|]. split; [done|]. split; [tauto|].
    intros Hempty Hbase. rewrite Hempty.
    rewrite andb_false_iff, !bool_decide_eq_false. split; [congruence|tauto].
  - intros -> ->. apply foldl_link_step_both_filters.
Qed.

Lemma filter_exclusive_length {A} (P Q : A → bool) (l : list A) :
  (∀ x, x ∈ l → P x && Q x = false) →
  (length (filter (λ x, P x) l) + length (filter (λ x, Q x) l) ≤ length l)%nat.
Proof.
  induction l as [|x l IH]; intros Hex; [done|].
  pose proof (Hex x (list_elem_of_here _ _)) as Hx.
  assert (∀ y, y ∈ l → P y && Q y = false) as Hl
    by (intros; by apply Hex, list_elem_of_further).
  specialize (IH Hl). rewrite !filter_cons.
  destruct (P x), (Q x); try done; repeat case_decide; simpl; try done; lia.
Qed.

(** C10.  In a result of [_extract_links] without an [error],
    [total_links] is the length of [links], [internal_count] the number of
    records whose [is_internal] is true, [external_count] the number of
    those whose [is_external] is true, and the two counts together do not
    exceed [total_links].  ([field_true key l] is the test [l[key]] of the
    code; on the records of [links] it is the Boolean stored under [key].) *)
Theorem links_counts args d :
  _extract_links args = inr d →
  has_key d "error" = false →
  ∃ links,
    d !! "links" = Some (VList links) ∧
    (∀ l, l ∈ links →
       ∃ is_internal is_external,
         field "is_internal" l = Some (VBool is_internal) ∧
         field "is_external" l = Some (VBool is_external) ∧
         field_true "is_internal" l = is_internal ∧
         field_true "is_external" l = is_external) ∧
    d !! "total_links" = Some (VInt (Z.of_nat (length links))) ∧
    d !! "internal_count"
      = Some (VInt (Z.of_nat
           (length (filter (λ l, field_true "is_internal" l) links)))) ∧
    d !! "external_count"
      = Some (VInt (Z.of_nat
           (length (filter (λ l, field_true "is_external" l) links)))) ∧
    ∃ total internal external,
      d !! "total_links" = Some (VInt total) ∧
      d !! "internal_count" = Some (VInt internal) ∧
      d !! "external_count" = Some (VInt external) ∧
      internal + external ≤ total.
Proof.
  intros Hd Herr. destruct (extract_links_ok args d Hd Herr) as [html ->].
  cbn zeta. set (links := foldl _ _ _).
  assert (Forall (link_record_of (urlparse_netloc (la_url args))) links) as Hrec
    by by apply foldl_link_step_records.
  exists links.
  split; [reflexivity|].
  split.
  { intros l Hl. eapply Forall_forall in Hl; [|exact Hrec].
    apply link_record_flags in Hl as (u & _ & Hi & He & Hti & Hte).
    by eexists _, _. }
  split; [reflexivity|]. split; [reflexivity|]. split; [reflexivity|].
  eexists _, _, _. split; [reflexivity|]. split; [reflexivity|].
  split; [reflexivity|].
  pose proof (filter_exclusive_length (field_true "is_internal")
                (field_true "is_external") links) as Hlen.
  rewrite <-Nat2Z.inj_add. apply Nat2Z.inj_le, Hlen.
  intros l Hl. eapply link_record_exclusive, Forall_forall; done.
Qed.

End links_properties.

(** ** The fallback extractor *)

Lemma node_ind' (P : Bs4.node → Prop) :
  (∀ s, P (Bs4.NavigableString s)) →
  (∀ nm a cs, Forall P cs → P (Bs4.Tag nm a cs)) →
  ∀ n, P n.
Proof.
  intros Hs Ht. fix IH 1. intros [s|nm a cs]; [apply Hs|]. apply Ht.
  induction cs as [|c cs IHcs]; constructor; [apply IH|apply IHcs].
Qed.

(** No tag with one of the names is left in the tree. *)
Lemma extract_removes names n :
  Forall (λ t, ∀ nm, Bs4.name t = Some nm → nm ∉ names)
         (flat_map Bs4.tags (Bs4.extract names n)).
Proof.
  induction n as [s|nm a cs IH] using node_ind'; cbn [Bs4.extract].
  - constructor.
  - case_decide; [constructor|].
    cbn [flat_map Bs4.tags]. rewrite app_nil_r. constructor.
    + by intros ? [= <-].
    + induction IH as [|c cs Hc _ IHcs]; [constructor|].
      cbn [flat_map]. rewrite flat_map_app. by apply Forall_app_2.
Qed.

Lemma extract_all_removes names soup :
  Forall (λ t, ∀ nm, Bs4.name t = Some nm → nm ∉ names)
         (flat_map Bs4.tags (Bs4.extract_all names soup)).
Proof.
  unfold Bs4.extract_all. induction soup as [|n soup IH]; [constructor|].
  cbn [flat_map]. rewrite flat_map_app.
  apply Forall_app_2; [apply extract_removes|done].
Qed.

(** Splitting at pairs of spaces against splitting at runs of spaces. *)

Lemma strip_space s : Py.strip (String SP s) = Py.strip s.
Proof. done. Qed.

Lemma chunks_of_push_space l : chunks_of (Py.push_char SP l) = chunks_of l.
Proof.
  destruct l as [|h t]; [done|].
  unfold chunks_of. cbn [Py.push_char fmap list_fmap]. by rewrite strip_space.
Qed.

Lemma chunks_of_empty l : chunks_of ("" :: l) = chunks_of l.
Proof. done. Qed.

Lemma same_head_chunks l1 l2 : same_head l1 l2 → chunks_of l1 = chunks_of l2.
Proof.
  intros (h & t1 & t2 & -> & -> & Ht). unfold chunks_of in *.
  cbn [fmap list_fmap]. rewrite !filter_cons. by rewrite Ht.
Qed.

Lemma same_head_push c l1 l2 :
  same_head l1 l2 → same_head (Py.push_char c l1) (Py.push_char c l2).
Proof. intros (h & t1 & t2 & -> & -> & Ht). by exists (String c h), t1, t2. Qed.

Lemma prefix_two_spaces s :
  String.prefix "  " s = true ↔ ∃ s'', s = String SP (String SP s'').
Proof.
  change "  " with (String SP (String SP "")).
  split; [|by intros [[|c s''] ->]].
  destruct s as [|c [|c' s'']]; cbn [String.prefix]; [done|..].
  - by destruct (Ascii.ascii_dec SP c).
  - destruct (Ascii.ascii_dec SP c) as [<-|]; [|done].
    destruct (Ascii.ascii_dec SP c') as [<-|]; [|done]. by exists s''.
Qed.

Lemma split_vs_runs n s :
  (String.length s < n)%nat →
  same_head (Py.split_go "  " 0 s) (split_runs false s) ∧
  chunks_of (Py.split_go "  " 0 s) = chunks_of (split_runs true s).
Proof.
  revert s; induction n as [|n IH]; intros s Hn; [lia|].
  destruct s as [|c s']; [by split; [exists "", [], []|]|].
  cbn [String.length] in Hn.
  assert (same_head (Py.split_go "  " 0 s') (split_runs false s')) as HA
    by (apply IH; lia).
  assert (chunks_of (Py.split_go "  " 0 s') = chunks_of (split_runs true s')) as HB
    by (apply IH; lia).
  cbn [Py.split_go split_runs].
  destruct (String.prefix "  " (String c s')) eqn:Hpre.
  - apply prefix_two_spaces in Hpre as [s'' [= -> ->]].
    cbn [String.length] in Hn.
    assert (chunks_of (Py.split_go "  " 0 s'') = chunks_of (split_runs true s''))
      as HB'' by (apply IH; lia).
    change (Ascii.eqb SP SP) with true. cbn match.
    change (Py.split_go "  " (String.length "  " - 1) (String SP s''))
      with (Py.split_go "  " 0 s'').
    change (split_runs true (String SP s'')) with (split_runs true s'').
    split; [by exists "", (Py.split_go "  " 0 s''), (split_runs true s'')|].
    by rewrite chunks_of_empty.
  - destruct (Ascii.eqb_spec c SP) as [->|Hc].
    + destruct s' as [|c' s''].
      { split; [by apply same_head_push|]. done. }
      destruct (Ascii.eqb_spec c' SP) as [->|Hc'].
      { by rewrite (proj2 (prefix_two_spaces _)) in Hpre by eauto. }
      split; [by apply same_head_push|].
      by rewrite chunks_of_push_space.
    + split; [by apply same_head_push|].
      by apply same_head_chunks, same_head_push.
Qed.

(** The pieces that [line.split("  ")] cuts give the same chunks as the
    pieces between the runs of two or more spaces. *)
Lemma split_chunks_runs line :
  chunks_of (Py.split "  " line) = chunks_of (split_on_space_runs line).
Proof.
  apply same_head_chunks.
  apply (split_vs_runs (S (String.length line))). lia.
Qed.

Lemma chunks_of_app l1 l2 : chunks_of (l1 ++ l2) = chunks_of l1 ++ chunks_of l2.
Proof. unfold chunks_of. by rewrite fmap_app, filter_app. Qed.

Lemma chunks_of_flat_map {A} (f : A → list string) l :
  chunks_of (flat_map f l) = flat_map (λ x, chunks_of (f x)) l.
Proof.
  induction l as [|x l IH]; [done|]. cbn [flat_map].
  by rewrite chunks_of_app, IH.
Qed.

Lemma chunks_of_nonempty l : Forall (λ chunk, chunk ≠ "") (chunks_of l).
Proof. apply Forall_forall. by intros chunk [? _]%list_elem_of_filter. Qed.

Section fallback_properties.
Context `{World}.
Import WebFetchMCP.

Lemma fallback_content_runs html :
  fallback_content html
  = Py.join Py.NL
      (chunks_of
         (flat_map split_on_space_runs
            (Py.strip <$> Py.splitlines
               (Bs4.get_text
                  (Bs4.extract_all ["script"; "style"] (BeautifulSoup html)))))).
Proof.
  unfold fallback_content. f_equal.
  change (filter _ (Py.strip <$> ?l)) with (chunks_of l).
  rewrite !chunks_of_flat_map.
  induction (Py.strip <$> _) as [|line lines IH]; [done|].
  cbn [flat_map]. by rewrite IH, split_chunks_runs.
Qed.

(** C3 (amended).  When [extract_content] is set, the content of a fetched
    page is the output of the primary extractor if that is a non-empty
    string, and the output of the fallback if and only if the primary
    extractor yields nothing or the empty string.  The fallback takes every
    script and style element out of the tree, splits the remaining text at
    line boundaries, trims each line, splits it at the runs of two or more
    spaces, trims the pieces, drops the empty ones and joins the others
    with single newlines.  On the document
    <html><body><script>x</script><p>Hello  World</p></body></html> its
    output is "Hello", a newline, "World". *)
Theorem content_fallback args r html :
  session_get (fa_url args) = inr r →
  status r < 400 →
  text r = inr html →
  default true (fa_extract_content args) = true →
  let primary := trafilatura_extract html in
  let soup := Bs4.extract_all ["script"; "style"] (BeautifulSoup html) in
  let lines := Py.strip <$> Py.splitlines (Bs4.get_text soup) in
  let chunks := chunks_of (flat_map split_on_space_runs lines) in
  ∃ d content,
    _fetch_webpage args = inr d ∧
    d !! "content" = Some (VStr content) ∧
    (primary = None ∨ primary = Some "" → content = fallback_content html) ∧
    (∀ extracted, primary = Some extracted → extracted ≠ "" →
                  content = extracted) ∧
    Forall (λ t, Bs4.name t ≠ Some "script" ∧ Bs4.name t ≠ Some "style")
           (flat_map Bs4.tags soup) ∧
    fallback_content html = Py.join Py.NL chunks ∧
    Forall (λ chunk, chunk ≠ "") chunks ∧
    (BeautifulSoup html = Example.soup_hello →
     fallback_content html = "Hello" +:+ Py.NL +:+ "World").
Proof.
  intros Hget Hst Htext Hec primary soup lines chunks.
  destruct (fetch_webpage_ok args r html Hget Hst Htext)
    as (d & Hd & _ & _ & _ & _ & Hcontent & _).
  rewrite Hec in Hcontent.
  exists d, (default (fallback_content html) (truthy primary)).
  split; [done|]. split; [done|]. split; [|split; [|split; [|split; [|split]]]].
  - by intros [->| ->].
  - intros extracted -> Hne. cbn [truthy]. by case_decide.
  - eapply Forall_impl; [apply extract_all_removes|].
    intros t Ht. split; intros Hn; apply Ht in Hn; revert Hn;
      by apply (bool_decide_unpack _).
  - apply fallback_content_runs.
  - apply chunks_of_nonempty.
  - intros Hsoup. unfold fallback_content. by rewrite Hsoup.
Qed.

End fallback_properties.

(** ** The batch: gathering under the semaphore *)

Section gather_properties.
Import WebFetchMCP.
Variable task : nat → M dict.
Variables n max_concurrent : nat.

Lemma sched_inv_init : sched_inv task n max_concurrent (sched_init n max_concurrent).
Proof.
  unfold sched_inv, sched_init; cbn. rewrite app_nil_r.
  split; [apply length_replicate|]. split; [apply NoDup_seq|].
  split; [intros i Hi; apply elem_of_seq in Hi; lia|].
  split; [|lia]. intros i Hi. left. apply elem_of_seq. lia.
Qed.

Lemma filter_all {A} (P : A → Prop) `{∀ x, Decision (P x)} (l : list A) :
  Forall P l → filter P l = l.
Proof.
  induction 1 as [|x l Hx _ IH]; [done|]. by rewrite filter_cons_True, IH.
Qed.

Lemma length_filter_remove (i : nat) (l : list nat) :
  NoDup l → i ∈ l → (length (filter (λ j, j ≠ i) l) + 1 = length l)%nat.
Proof.
  induction 1 as [|x l Hx Hnd IH]; intros Hi; [by apply elem_of_nil in Hi|].
  destruct (decide (x = i)) as [->|Hne].
  - rewrite filter_cons_False by naive_solver. cbn [length].
    assert (filter (λ j, j ≠ i) l = l) as ->; [|lia].
    apply filter_all, Forall_forall. intros j Hj ->. done.
  - rewrite filter_cons_True by done. cbn [length].
    apply elem_of_cons in Hi as [->|Hi]; [done|]. specialize (IH Hi). lia.
Qed.

Lemma sched_step_inv s e s' :
  sched_inv task n max_concurrent s →
  sched_step task s e = Some s' →
  sched_inv task n max_concurrent s' ∧ (sched_todo s' + 1 = sched_todo s)%nat.
Proof.
  intros (Hlen & Hnd & Hlt & Hslot & Hperm) Hstep.
  destruct s as [w r p sl]. unfold sched_todo. cbn in *.
  destruct e as [|i]; cbn in Hstep.
  - destruct w as [|i w]; [done|]. destruct p as [|p]; [done|].
    injection Hstep as <-. unfold sched_inv. cbn.
    assert (∀ j, j ∈ w ++ i :: r ↔ j ∈ (i :: w) ++ r) as Hmem.
    { intros j. cbn [app].
      repeat (rewrite elem_of_app || rewrite elem_of_cons). tauto. }
    split; [|lia]. split; [done|].
    split.
    { by rewrite <-Permutation_middle. }
    split; [intros j Hj; apply Hlt, Hmem, Hj|].
    split; [|lia].
    intros j Hj. destruct (Hslot j Hj) as [Hin|Hs]; [left; by apply Hmem|by right].
  - case_decide as Hi; [|done]. injection Hstep as <-. unfold sched_inv. cbn.
    apply NoDup_app in Hnd as (Hndw & Hdisj & Hndr).
    pose proof (length_filter_remove i r Hndr Hi) as Hrem.
    split; [|lia].
    split; [by rewrite length_insert|].
    split.
    { apply NoDup_app. split; [done|]. split; [|by apply NoDup_filter].
      intros j Hj [_ Hjr]%list_elem_of_filter. by eapply Hdisj. }
    split.
    { intros j [Hj|[_ Hj]%list_elem_of_filter]%elem_of_app;
        apply Hlt, elem_of_app; auto. }
    split; [|lia].
    intros j Hj. destruct (decide (j = i)) as [->|Hne].
    + right. apply list_lookup_insert_eq. lia.
    + destruct (Hslot j Hj) as [Hin|Hs].
      * left. apply elem_of_app in Hin as [Hin|Hin]; apply elem_of_app; [by left|].
        right. by apply list_elem_of_filter.
      * right. by rewrite list_lookup_insert_ne.
Qed.

Lemma sched_run_inv es s s' :
  sched_inv task n max_concurrent s →
  sched_run task s es = Some s' →
  sched_inv task n max_concurrent s' ∧
  (sched_todo s' + length es = sched_todo s)%nat.
Proof.
  revert s; induction es as [|e es IH]; intros s Hinv Hrun; cbn in Hrun.
  - injection Hrun as <-. split; [done|]. cbn [length]. lia.
  - destruct (sched_step task s e) as [s1|] eqn:Hstep; [|done].
    destruct (sched_step_inv _ _ _ Hinv Hstep) as [Hinv1 Htodo].
    destruct (IH _ Hinv1 Hrun) as [Hinv' Htodo']. split; [done|].
    cbn [length]. lia.
Qed.

Lemma sched_run_app es es' s :
  sched_run task s (es ++ es')
  = match sched_run task s es with
    | Some s' => sched_run task s' es'
    | None => None
    end.
Proof.
  revert s; induction es as [|e es IH]; intros s; [done|].
  cbn. by destruct (sched_step task s e).
Qed.

(** When every task is done, slot [i] holds the outcome of task [i]. *)
Lemma sched_done_slots s :
  sched_inv task n max_concurrent s →
  sched_done s = true →
  slots s = (λ i, Some (task i)) <$> seq 0 n.
Proof.
  intros (Hlen & _ & _ & Hslot & _) [Hw Hr]%bool_decide_eq_true.
  apply list_eq. intros i. rewrite list_lookup_fmap.
  destruct (decide (i < n)%nat) as [Hi|Hi].
  - rewrite lookup_seq_lt by done. cbn.
    destruct (Hslot i Hi) as [Hin|Hs]; [|done].
    rewrite Hw, Hr in Hin. by apply elem_of_nil in Hin.
  - rewrite lookup_seq_ge by lia. apply lookup_ge_None. lia.
Qed.

(** With a permit to give, a run that is not done can go on. *)
Lemma sched_progress s :
  (1 ≤ max_concurrent)%nat →
  sched_inv task n max_concurrent s →
  sched_done s = false →
  ∃ e s', sched_step task s e = Some s'.
Proof.
  intros Hmc (_ & _ & _ & _ & Hperm) Hdone.
  destruct s as [w r p sl]. cbn in *.
  destruct r as [|i r].
  - destruct w as [|i w]; [done|]. cbn in Hperm.
    destruct p as [|p]; [lia|]. by exists Acquire; eexists.
  - exists (Complete i). cbn. rewrite decide_True by apply list_elem_of_here.
    by eexists.
Qed.

(** So every run can be completed. *)
Lemma sched_completes k s :
  (1 ≤ max_concurrent)%nat →
  (sched_todo s ≤ k)%nat →
  sched_inv task n max_concurrent s →
  ∃ es s', sched_run task s es = Some s' ∧ sched_done s' = true.
Proof.
  intros Hmc. revert s; induction k as [|k IH]; intros s Hk Hinv.
  - exists [], s. split; [done|]. apply bool_decide_eq_true.
    unfold sched_todo in Hk.
    destruct (waiting s), (running s); cbn in Hk; done || lia.
  - destruct (sched_done s) eqn:Hdone; [by exists [], s|].
    destruct (sched_progress s Hmc Hinv Hdone) as (e & s1 & Hstep).
    destruct (sched_step_inv _ _ _ Hinv Hstep) as [Hinv1 Htodo].
    destruct (IH s1) as (es & s' & Hrun & Hd); [lia|done|].
    exists (e :: es), s'. cbn. by rewrite Hstep.
Qed.

End gather_properties.

Section batch_properties.
Context `{World}.
Import WebFetchMCP.

Lemma gather_unfold (tasks : list (M dict)) mc es :
  gather tasks mc es
  = match sched_run (λ i, default (raise (OtherException "")) (tasks !! i))
            (sched_init (length tasks) mc) es with
    | Some s =>
        if sched_done s
        then Some (default (raise (OtherException "")) <$> slots s)
        else None
    | None => None
    end.
Proof. done. Qed.

(** Whatever the interleaving, [gather] returns the outcomes of the tasks
    in the order of the tasks. *)
Lemma gather_in_order (tasks : list (M dict)) mc es results :
  gather tasks mc es = Some results → results = tasks.
Proof.
  rewrite gather_unfold.
  set (task := λ i, default (raise (OtherException "")) (tasks !! i)).
  destruct (sched_run _ _ _) as [s|] eqn:Hrun; [|done].
  destruct (sched_done s) eqn:Hdone; [|done]. intros [= <-].
  destruct (sched_run_inv task (length tasks) mc es _ s
              (sched_inv_init _ _ _) Hrun) as [Hinv _].
  rewrite (sched_done_slots task _ _ s Hinv Hdone).
  apply list_eq. intros i. rewrite !list_lookup_fmap.
  destruct (decide (i < length tasks)%nat) as [Hi|Hi].
  - rewrite lookup_seq_lt by done. cbn. unfold task.
    destruct (lookup_lt_is_Some_2 tasks i Hi) as [r ->]. done.
  - rewrite lookup_seq_ge by lia. cbn. symmetry. apply lookup_ge_None. lia.
Qed.

(** With at least one permit, an interleaving that the tasks can follow is
    at most twice as long as the list of tasks, and can be completed. *)
Lemma gather_completes (tasks : list (M dict)) mc es s :
  (1 ≤ mc)%nat →
  sched_run (λ i, default (raise (OtherException "")) (tasks !! i))
    (sched_init (length tasks) mc) es = Some s →
  (length es ≤ 2 * length tasks)%nat ∧
  ∃ es', gather tasks mc (es ++ es') = Some tasks.
Proof.
  intros Hmc Hrun.
  set (task := λ i, default (raise (OtherException "")) (tasks !! i)) in *.
  destruct (sched_run_inv task (length tasks) mc es _ s
              (sched_inv_init _ _ _) Hrun) as [Hinv Htodo].
  split.
  { unfold sched_todo at 2 in Htodo. cbn in Htodo.
    rewrite length_seq in Htodo. lia. }
  destruct (sched_completes task (length tasks) mc (sched_todo s) s)
    as (es' & s' & Hrun' & Hdone); [done..|].
  exists es'.
  assert (gather tasks mc (es ++ es') = Some (default (raise (OtherException ""))
                                                <$> slots s')) as Hg.
  { rewrite gather_unfold. fold task. by rewrite sched_run_app, Hrun, Hrun', Hdone. }
  rewrite Hg. f_equal. by eapply gather_in_order.
Qed.

(** Without a permit no task is ever admitted: [gather] of a non-empty
    list of tasks does not return. *)
Lemma gather_without_permits (tasks : list (M dict)) es :
  tasks ≠ [] → gather tasks 0 es = None.
Proof.
  intros Htasks. rewrite gather_unfold.
  destruct tasks as [|t tasks]; [done|].
  destruct es as [|[|i] es]; cbn; [done..|].
  by rewrite decide_False by apply not_elem_of_nil.
Qed.

Lemma fetch_single_returns args url : ∃ d, fetch_single args url = inr d.
Proof. apply fetch_webpage_returns. Qed.

Lemma successful_or_failed (results : list (M dict)) :
  (length (filter (λ r, is_successful r) results)
   + length (filter (λ r, is_failed r) results) = length results)%nat.
Proof.
  induction results as [|r results IH]; [done|].
  assert (is_failed r = negb (is_successful r)) as Hr
    by (destruct r; cbn; by rewrite ?negb_involutive).
  rewrite !filter_cons, Hr.
  destruct (is_successful r); cbn [negb]; repeat case_decide;
    cbn [length]; try lia; naive_solver.
Qed.

Lemma fetch_multiple_pages_unfold args es :
  0 ≤ default 5 (ba_max_concurrent args) →
  _fetch_multiple_pages args es
  = match gather (fetch_single args <$> ba_urls args)
            (Z.to_nat (default 5 (ba_max_concurrent args))) es with
    | Some results => Some (inr (batch_result (ba_urls args) results))
    | None => None
    end.
Proof.
  intros Hmc. unfold _fetch_multiple_pages.
  by destruct (Z.ltb_spec (default 5 (ba_max_concurrent args)) 0); [lia|].
Qed.

(** C7.  Whatever the order in which the fetches complete, the batch
    returns the same dictionary: its [results] has one entry for each input
    URL, entry [i] being the outcome of the fetch of URL [i], and its
    counts [successful] and [failed] are those of the outcomes without and
    with an [error], which add up to [total_urls].  With at least one
    permit every interleaving of the tasks is finite and leads to that
    result.  For three URLs of which the second fails, the entries are
    the three outcomes in order, with [successful] 2 and [failed] 1. *)
Theorem batch_results_in_input_order args :
  let urls := ba_urls args in
  let max_concurrent := default 5 (ba_max_concurrent args) in
  let outcomes := fetch_single args <$> urls in
  let response := batch_result urls outcomes in
  (0 ≤ max_concurrent →
   ∀ es out, _fetch_multiple_pages args es = Some out → out = inr response) ∧
  (1 ≤ max_concurrent →
   ∀ es, is_Some (batch_run args es) →
     (length es ≤ 2 * length urls)%nat ∧
     ∃ es', _fetch_multiple_pages args (es ++ es') = Some (inr response)) ∧
  (∃ entries successful failed,
     response !! "results" = Some (VList entries) ∧
     response !! "total_urls" = Some (VInt (Z.of_nat (length urls))) ∧
     response !! "successful" = Some (VInt successful) ∧
     response !! "failed" = Some (VInt failed) ∧
     length entries = length urls ∧
     (∀ i url, urls !! i = Some url →
        ∃ d, fetch_single args url = inr d ∧ entries !! i = Some (VDict d)) ∧
     successful
       = Z.of_nat (length (filter (λ r, is_successful r) outcomes)) ∧
     failed = Z.of_nat (length (filter (λ r, is_failed r) outcomes)) ∧
     successful + failed = Z.of_nat (length urls)) ∧
  (∀ u1 u2 u3 r1 r2 r3,
     urls = [u1; u2; u3] →
     fetch_single args u1 = inr r1 → has_key r1 "error" = false →
     fetch_single args u2 = inr r2 → has_key r2 "error" = true →
     fetch_single args u3 = inr r3 → has_key r3 "error" = false →
     response !! "results" = Some (VList [VDict r1; VDict r2; VDict r3]) ∧
     response !! "successful" = Some (VInt 2) ∧
     response !! "failed" = Some (VInt 1)).
Proof.
  intros urls max_concurrent outcomes response.
  split; [|split; [|split]].
  - intros Hmc es out. rewrite fetch_multiple_pages_unfold by done.
    destruct (gather _ _ es) as [results|] eqn:Hg; [|done].
    apply gather_in_order in Hg as ->. by intros [= <-].
  - intros Hmc es [s Hrun]. unfold batch_run, batch_task in Hrun.
    replace (length (ba_urls args)) with (length outcomes) in Hrun
      by apply length_fmap.
    destruct (gather_completes outcomes (Z.to_nat max_concurrent) es s)
      as [Hlen [es' Hg]]; [lia|done|].
    split; [by rewrite <-(length_fmap (fetch_single args))|].
    exists es'. rewrite fetch_multiple_pages_unfold by (fold max_concurrent; lia).
    fold urls outcomes max_concurrent. by rewrite Hg.
  - exists (result_entry <$> outcomes),
           (Z.of_nat (length (filter (λ r, is_successful r) outcomes))),
           (Z.of_nat (length (filter (λ r, is_failed r) outcomes))).
    split; [reflexivity|]. split; [reflexivity|].
    split; [reflexivity|]. split; [reflexivity|].
    split; [unfold outcomes; by rewrite !length_fmap|].
    split.
    { intros i url Hi.
      destruct (fetch_single_returns args url) as [d Hd]. exists d.
      split; [done|]. unfold outcomes.
      by rewrite !list_lookup_fmap, Hi; cbn; rewrite Hd. }
    split; [done|]. split; [done|].
    rewrite <-Nat2Z.inj_add, successful_or_failed. unfold outcomes.
    by rewrite length_fmap.
  - intros u1 u2 u3 r1 r2 r3 Hurls H1 He1 H2 He2 H3 He3.
    subst response outcomes. rewrite Hurls. cbn [fmap list_fmap].
    rewrite H1, H2, H3. unfold batch_result.
    rewrite !filter_cons, filter_nil. cbn [is_successful is_failed].
    rewrite He1, He2, He3. cbn [negb].
    rewrite !decide_True, !decide_False by naive_solver.
    repeat split; reflexivity.
Qed.

End batch_properties.

(* ===================================================================== *)
(** * Further properties of the code *)
(* ===================================================================== *)

(** ** Searching a page *)

Lemma occurrences_sorted t s from : StronglySorted lt (occurrences t s from).
Proof.
  unfold occurrences. generalize (S (String.length s) - from)%nat as k.
  intros k. revert from. induction k as [|k IH]; intros from; [constructor|].
  cbn [seq]. rewrite filter_cons. case_decide; [|apply IH].
  constructor; [apply IH|].
  apply Forall_forall. intros p [_ Hp%elem_of_seq]%list_elem_of_filter. lia.
Qed.

Lemma occurs_at_empty s p : (p ≤ String.length s)%nat → occurs_at "" s p = true.
Proof.
  revert s; induction p as [|p IH]; intros s Hp; [by destruct s|].
  destruct s as [|c s]; cbn in *; [lia|]. apply IH. lia.
Qed.

Lemma occurrences_empty s : occurrences "" s 0 = seq 0 (S (String.length s)).
Proof.
  unfold occurrences. rewrite Nat.sub_0_r. apply filter_all, Forall_forall.
  intros p Hp%elem_of_seq. rewrite occurs_at_empty; [done|lia].
Qed.

Lemma occurs_at_substring t s p :
  occurs_at t s p = true → String.substring p (String.length t) s = t.
Proof.
  revert s; induction p as [|p IH]; intros s Hp.
  - by apply String.prefix_correct.
  - destruct s as [|c s]; [done|]. cbn [occurs_at] in Hp. cbn. by apply IH.
Qed.

Lemma substring_length_le s n m :
  (String.length (String.substring n m s) ≤ m)%nat.
Proof.
  revert n m; induction s as [|c s IH]; intros [|n] [|m]; cbn; try lia.
  - specialize (IH 0%nat m). lia.
  - apply IH.
  - apply IH.
Qed.

(** A slice is never longer than the distance between its bounds. *)
Lemma slice_length_le s a b :
  0 ≤ a → 0 ≤ b → Py.len (Py.slice s a b) ≤ Z.max 0 (b - a).
Proof.
  intros Ha Hb. unfold Py.slice, Py.slice_bound, Py.len.
  destruct (Z.ltb_spec a 0); [lia|]. destruct (Z.ltb_spec b 0); [lia|].
  pose proof (substring_length_le s (Z.to_nat (Z.min a (Z.of_nat (String.length s))))
                (Z.to_nat (Z.min b (Z.of_nat (String.length s))
                           - Z.min a (Z.of_nat (String.length s))))).
  lia.
Qed.

Lemma substring_substring s a k p l :
  (p + l ≤ k)%nat →
  String.substring p l (String.substring a k s) = String.substring (a + p) l s.
Proof.
  revert a k p l; induction s as [|c s IH]; intros a k p l Hle.
  - destruct a, k, p, l; cbn; try done.
  - destruct a as [|a].
    + destruct k as [|k]; [by replace p with 0%nat by lia; replace l with 0%nat by lia; destruct s|].
      destruct p as [|p].
      * destruct l as [|l]; [done|]. cbn. f_equal.
        apply (IH 0%nat k 0%nat l). lia.
      * cbn. apply (IH 0%nat k p l). lia.
    + cbn. apply IH. lia.
Qed.

Section search_extras.
Context `{World}.
Import WebFetchMCP.

(** X1.  For every URL, every list of terms and every integer
    [context_chars], negative ones included, [_search_webpage_content]
    returns: the scan terminates and nothing is raised.  When the fetch of
    the page has failed, the failure of [_fetch_webpage] is returned as it
    is; otherwise the response has no [error] and lists its [matches].
    ([context_chars] is an integer in [search_args]; the slice of the
    content does not accept a float.) *)
Theorem search_webpage_content_returns args :
  ∃ webpage_result response,
    _fetch_webpage {| fa_url := sa_url args; fa_extract_content := Some true;
                      fa_include_metadata := Some false; fa_timeout := None |}
      = inr webpage_result ∧
    _search_webpage_content args = Some (inr response) ∧
    (has_key webpage_result "error" = true → response = webpage_result) ∧
    (has_key webpage_result "error" = false →
       response !! "error" = None ∧ has_key response "matches" = true ∧
       response !! "url" = Some (VStr (sa_url args))).
Proof.
  destruct (fetch_webpage_returns
              {| fa_url := sa_url args; fa_extract_content := Some true;
                 fa_include_metadata := Some false; fa_timeout := None |})
    as [webpage_result Hpage].
  exists webpage_result. unfold _search_webpage_content. rewrite Hpage.
  destruct (has_key webpage_result "error") eqn:Herr.
  - exists webpage_result. by repeat split.
  - rewrite search_spec. eexists. split; [done|]. split; [done|].
    split; [done|]. intros _. by repeat split.
Qed.

(** X2.  The number of matches that a search reports is the number of
    occurrences of the terms in the scanned content, term by term; a search
    for no term at all reports no match. *)
Theorem search_total_matches args webpage_result :
  _fetch_webpage {| fa_url := sa_url args; fa_extract_content := Some true;
                    fa_include_metadata := Some false; fa_timeout := None |}
    = inr webpage_result →
  has_key webpage_result "error" = false →
  let content := match webpage_result !! "content" with
                 | Some (VStr c) => c | _ => "" end in
  let case_sensitive := default false (sa_case_sensitive args) in
  let terms := if case_sensitive then sa_search_terms args
               else Py.lower <$> sa_search_terms args in
  ∃ response matches,
    _search_webpage_content args = Some (inr response) ∧
    response !! "matches" = Some (VList matches) ∧
    response !! "total_matches" = Some (VInt (Z.of_nat (length matches))) ∧
    response !! "content_length" = Some (VInt (Py.len content)) ∧
    length matches
      = sum_list ((λ term, length (occurrences term (searched case_sensitive content) 0))
                    <$> terms) ∧
    (sa_search_terms args = [] → matches = []).
Proof.
  intros Hpage Herr content case_sensitive terms.
  unfold _search_webpage_content. rewrite Hpage, Herr. fold content case_sensitive.
  rewrite search_spec. fold terms.
  eexists _, _. split; [done|]. split; [done|]. split; [done|]. split; [done|].
  split.
  - generalize terms as ts. induction ts as [|t ts IH]; [done|].
    cbn [flat_map fmap list_fmap sum_list sum_list_with].
    by rewrite length_app, length_fmap, IH.
  - intros Hnil. subst terms. rewrite Hnil. by destruct case_sensitive.
Qed.

(** X3.  The empty term occurs at every offset of the string that is
    scanned, its end included: searching for it gives one match more than
    the scanned string has characters, at the offsets 0 to its length.  The
    scanned string is the content in a case-sensitive search, where this
    makes [len(content) + 1] matches, and its lower-cased copy otherwise. *)
Theorem search_empty_term content case_sensitive context_chars :
  ∃ matches,
    search content [""] case_sensitive context_chars = Some matches ∧
    field "position" <$> matches
      = (λ p, Some (VInt (Z.of_nat p)))
          <$> seq 0 (S (String.length (searched case_sensitive content))) ∧
    length matches = S (String.length (searched case_sensitive content)) ∧
    (case_sensitive = true → length matches = S (String.length content)).
Proof.
  eexists. split; [apply search_spec|].
  assert ((if case_sensitive then [""] else Py.lower <$> [""]) = [""]) as ->
    by by destruct case_sensitive.
  cbn [flat_map]. rewrite app_nil_r, occurrences_empty.
  split; [|split].
  - rewrite <-list_fmap_compose. apply list_fmap_ext. by intros ? p _.
  - by rewrite length_fmap, length_seq.
  - intros ->. by rewrite length_fmap, length_seq.
Qed.

(** X4.  The matches come term by term, in the order of the terms, and
    for one term at strictly increasing offsets: no occurrence is reported
    twice. *)
Theorem search_matches_ordered content terms case_sensitive context_chars :
  ∃ groups : list (list value),
    search content terms case_sensitive context_chars = Some (concat groups) ∧
    length groups = length terms ∧
    ∀ i term group,
      (if case_sensitive then terms else Py.lower <$> terms) !! i = Some term →
      groups !! i = Some group →
      ∃ offsets,
        StronglySorted lt offsets ∧
        group = match_at content context_chars term <$> offsets ∧
        Forall (λ m, field "term" m = Some (VStr term)) group ∧
        field "position" <$> group = (λ p, Some (VInt (Z.of_nat p))) <$> offsets.
Proof.
  set (ts := if case_sensitive then terms else Py.lower <$> terms).
  exists ((λ term, match_at content context_chars term
                     <$> occurrences term (searched case_sensitive content) 0)
          <$> ts).
  split; [|split].
  - rewrite search_spec. fold ts. f_equal. generalize ts as l.
    induction l as [|t l IH]; [done|].
    cbn [flat_map fmap list_fmap concat]. by rewrite IH.
  - rewrite length_fmap. subst ts. destruct case_sensitive; [done|].
    by rewrite length_fmap.
  - intros i term group Hterm Hgroup.
    rewrite list_lookup_fmap, Hterm in Hgroup. injection Hgroup as <-.
    eexists. split; [apply occurrences_sorted|]. split; [done|]. split.
    + apply Forall_fmap, Forall_forall. by intros p _.
    + rewrite <-list_fmap_compose. apply list_fmap_ext. by intros ? p _.
Qed.

(** X5.  For a budget that is not negative, the [context] of every match
    is at most as long as its term plus the budget.  In a case-sensitive
    search the context contains the match: the part of the context at
    [position - context_start], of the length of the term, is the term, and
    so is the text of the content at [position]. *)
Theorem search_context_contains_match content terms case_sensitive context_chars :
  0 ≤ context_chars →
  ∃ matches,
    search content terms case_sensitive context_chars = Some matches ∧
    ∀ m, m ∈ matches →
      ∃ term pos context context_start,
        field "term" m = Some (VStr term) ∧
        field "position" m = Some (VInt pos) ∧
        field "context" m = Some (VStr context) ∧
        field "context_start" m = Some (VInt context_start) ∧
        Py.len context ≤ Py.len term + context_chars ∧
        (case_sensitive = true →
           Py.slice context (pos - context_start)
             (pos - context_start + Py.len term) = term ∧
           Py.slice content pos (pos + Py.len term) = term).
Proof.
  intros Hcc. eexists. split; [apply search_spec|].
  intros m Hm. apply list_elem_of_In, in_flat_map in Hm as (term & Hterm & Hm).
  apply list_elem_of_In, list_elem_of_fmap in Hm as (p & -> & Hp).
  apply list_elem_of_filter in Hp as [Hocc%Is_true_true _].
  set (pos := Z.of_nat p).
  set (cs := Z.max 0 (pos - context_chars `div` 2)).
  set (ce := Z.min (Py.len content) (pos + Py.len term + context_chars `div` 2)).
  assert (0 ≤ context_chars `div` 2) by (apply Z.div_pos; lia).
  assert (2 * (context_chars `div` 2) ≤ context_chars)
    by (apply Z.mul_div_le; lia).
  assert (0 ≤ Py.len term) by (unfold Py.len; lia).
  assert (0 ≤ Py.len content) by (unfold Py.len; lia).
  exists term, pos, (Py.slice content cs ce), cs.
  split; [reflexivity|]. split; [reflexivity|].
  split; [reflexivity|].
  split; [reflexivity|]. split.
  - pose proof (slice_length_le content cs ce). lia.
  - intros ->. cbn [searched] in Hocc.
    pose proof (occurs_at_fits _ _ _ Hocc) as Hfit.
    assert (pos + Py.len term ≤ Py.len content) by (unfold Py.len, pos; lia).
    destruct (slice_inside content cs ce) as [Hctx Hctxlen]; [lia..|].
    destruct (slice_inside content pos (pos + Py.len term)) as [Hmt _]; [lia..|].
    assert (Py.slice content pos (pos + Py.len term) = term) as Hterm'.
    { rewrite Hmt. replace (pos + Py.len term - pos) with (Py.len term) by lia.
      unfold pos, Py.len. rewrite !Nat2Z.id. by apply occurs_at_substring. }
    split; [|done].
    transitivity (Py.slice content pos (pos + Py.len term)); [|done].
    destruct (slice_inside (Py.slice content cs ce) (pos - cs)
                (pos - cs + Py.len term)) as [Hin _]; [lia..|].
    rewrite Hin, Hmt, Hctx.
    replace (pos - cs + Py.len term - (pos - cs)) with (Py.len term) by lia.
    replace (pos + Py.len term - pos) with (Py.len term) by lia.
    rewrite substring_substring by (unfold Py.len in *; lia).
    f_equal. lia.
Qed.

End search_extras.

(** ** Extracting links *)

Lemma filter_none {A} (P : A → Prop) `{∀ x, Decision (P x)} (l : list A) :
  Forall (λ x, ¬ P x) l → filter P l = [].
Proof.
  induction 1 as [|x l Hx _ IH]; [done|]. by rewrite filter_cons_False, IH.
Qed.

Section links_extras.
Context `{World}.
Import WebFetchMCP.

Lemma link_info_flags url link :
  field_true "is_internal" (link_info url link)
    = bool_decide (urlparse_netloc (urljoin url (Bs4.get link "href" ""))
                   = urlparse_netloc url) ∧
  field_true "is_external" (link_info url link)
    = bool_decide (urlparse_netloc (urljoin url (Bs4.get link "href" ""))
                   ≠ urlparse_netloc url)
      && bool_decide (urlparse_netloc (urljoin url (Bs4.get link "href" "")) ≠ "").
Proof. done. Qed.

Lemma link_step_kept url fi fe ia links link :
  link_step url (urlparse_netloc url) fi fe ia links link
  = if link_kept url fi fe ia link then links ++ [link_info url link] else links.
Proof.
  unfold link_step, link_kept.
  destruct (link_info_flags url link) as [-> ->].
  change (VDict _) with (link_info url link).
  generalize (link_info url link) as info. intros info.
  destruct (Py.startswith _ _), ia, fi, fe, (bool_decide (_ = _)),
    (bool_decide (_ ≠ _) && _); reflexivity.
Qed.

Lemma foldl_link_step_kept url fi fe ia nodes links :
  foldl (link_step url (urlparse_netloc url) fi fe ia) links nodes
  = links ++ (link_info url <$> filter (λ a, link_kept url fi fe ia a) nodes).
Proof.
  revert links; induction nodes as [|a nodes IH]; intros links.
  { by rewrite app_nil_r. }
  cbn [foldl]. rewrite IH, link_step_kept, filter_cons.
  destruct (link_kept url fi fe ia a).
  - rewrite decide_True by done. by rewrite <-app_assoc.
  - by rewrite decide_False by naive_solver.
Qed.

(** The page behind a result of [_extract_links] without an [error]. *)
Lemma extract_links_page args d :
  _extract_links args = inr d →
  has_key d "error" = false →
  ∃ r html,
    session_get (la_url args) = inr r ∧ text r = inr html ∧
    let links :=
      foldl (link_step (la_url args) (urlparse_netloc (la_url args))
               (default false (la_filter_internal args))
               (default false (la_filter_external args))
               (default false (la_include_anchors args)))
            [] (Bs4.find_all_with "a" "href" (BeautifulSoup html)) in
    d = {[ "source_url" := VStr (la_url args);
           "total_links" := VInt (Z.of_nat (length links));
           "internal_count" :=
             VInt (Z.of_nat (length (filter (λ l, field_true "is_internal" l) links)));
           "external_count" :=
             VInt (Z.of_nat (length (filter (λ l, field_true "is_external" l) links)));
           "links" := VList links ]}.
Proof.
  unfold _extract_links. intros Hd Herr.
  destruct (session_get (la_url args)) as [e|r]; cbn [bind try_except] in Hd.
  { injection Hd as <-. done. }
  unfold raise_for_status in Hd.
  destruct (400 <=? status r); cbn [bind raise ret try_except] in Hd.
  { injection Hd as <-. done. }
  destruct (text r) as [e|html] eqn:Htext; cbn [bind try_except] in Hd.
  { injection Hd as <-. done. }
  injection Hd as <-. by exists r, html.
Qed.

(** X6.  A result of [_extract_links] without an [error] lists the links
    of the page that was fetched in document order: there is one record
    for each anchor with an [href] that the loop keeps, an anchor that occurs twice giving two records,
    and the [url] of the record is the [href] resolved against the URL of
    the page.  Without filters every anchor is kept, but for those whose
    [href] starts with "#" when [include_anchors] is not set. *)
Theorem links_in_document_order args d :
  _extract_links args = inr d →
  has_key d "error" = false →
  ∃ r html kept,
    session_get (la_url args) = inr r ∧ text r = inr html ∧
    kept `sublist_of` anchors (BeautifulSoup html) ∧
    d !! "links" = Some (VList (link_info (la_url args) <$> kept)) ∧
    d !! "total_links" = Some (VInt (Z.of_nat (length kept))) ∧
    (∀ a, a ∈ kept →
       field "url" (link_info (la_url args) a)
         = Some (VStr (urljoin (la_url args) (Bs4.get a "href" ""))) ∧
       field "text" (link_info (la_url args) a)
         = Some (VStr (Bs4.get_text_strip a)) ∧
       (default false (la_include_anchors args) = false →
        Py.startswith (Bs4.get a "href" "") "#" = false)) ∧
    (default false (la_filter_internal args) = false →
     default false (la_filter_external args) = false →
     kept = filter (λ a, default false (la_include_anchors args)
                         || negb (Py.startswith (Bs4.get a "href" "") "#"))
                   (anchors (BeautifulSoup html))).
Proof.
  intros Hd Herr.
  destruct (extract_links_page args d Hd Herr) as (r & html & Hr & Hhtml & ->).
  cbn zeta. rewrite foldl_link_step_kept. cbn [app].
  set (fi := default false (la_filter_internal args)).
  set (fe := default false (la_filter_external args)).
  set (ia := default false (la_include_anchors args)).
  exists r, html, (filter (λ a, link_kept (la_url args) fi fe ia a)
                          (anchors (BeautifulSoup html))).
  split; [done|]. split; [done|].
  split; [apply sublist_filter|]. split; [reflexivity|].
  split; [by rewrite length_fmap|]. split.
  - intros a [Hk _]%list_elem_of_filter. split; [done|]. split; [done|].
    intros Hia. unfold link_kept in Hk. rewrite Hia in Hk.
    by destruct (Py.startswith _ _).
  - intros Hfi Hfe. apply list_filter_iff. intros a.
    unfold link_kept. rewrite Hfi, Hfe. cbn [negb orb].
    by rewrite !andb_true_r.
Qed.

(** X7.  With [filter_internal] set every link of the result is internal
    and [internal_count] is [total_links], [external_count] being 0; with
    [filter_external] set every link is external and [external_count] is
    [total_links], [internal_count] being 0. *)
Theorem links_filters args d :
  _extract_links args = inr d →
  has_key d "error" = false →
  ∃ links total,
    d !! "links" = Some (VList links) ∧
    d !! "total_links" = Some (VInt total) ∧
    (default false (la_filter_internal args) = true →
       Forall (λ l, field "is_internal" l = Some (VBool true)
                    ∧ field "is_external" l = Some (VBool false)) links ∧
       d !! "internal_count" = Some (VInt total) ∧
       d !! "external_count" = Some (VInt 0)) ∧
    (default false (la_filter_external args) = true →
       Forall (λ l, field "is_external" l = Some (VBool true)
                    ∧ field "is_internal" l = Some (VBool false)) links ∧
       d !! "external_count" = Some (VInt total) ∧
       d !! "internal_count" = Some (VInt 0)).
Proof.
  intros Hd Herr. destruct (extract_links_ok args d Hd Herr) as [html ->].
  cbn zeta. set (links := foldl _ _ _).
  assert (Forall (link_record_of (urlparse_netloc (la_url args))) links) as Hrec
    by by apply foldl_link_step_records.
  assert (links = [] ++ (link_info (la_url args) <$>
            filter (λ a, link_kept (la_url args)
                           (default false (la_filter_internal args))
                           (default false (la_filter_external args))
                           (default false (la_include_anchors args)) a)
                   (Bs4.find_all_with "a" "href" (BeautifulSoup html)))) as Hlinks
    by apply foldl_link_step_kept.
  cbn [app] in Hlinks.
  exists links, (Z.of_nat (length links)).
  split; [reflexivity|]. split; [reflexivity|]. split.
  - intros Hfi.
    assert (Forall (λ l, field_true "is_internal" l = true) links) as Hint.
    { rewrite Hlinks. apply Forall_fmap, Forall_forall.
      intros a [Hk _]%list_elem_of_filter. unfold link_kept in Hk.
      rewrite Hfi in Hk. cbn [negb orb] in Hk.
      apply Is_true_true in Hk. rewrite !andb_true_iff in Hk.
      by destruct Hk as [[_ Hk] _]. }
    assert (Forall (λ l, field_true "is_external" l = false) links) as Hext.
    { apply Forall_forall. intros l Hl.
      eapply Forall_forall in Hint; [|done].
      eapply Forall_forall in Hrec; [|done].
      apply link_record_exclusive in Hrec. rewrite Hint in Hrec. done. }
    split; [|split].
    + apply Forall_forall. intros l Hl.
      eapply Forall_forall in Hint; [|done].
      eapply Forall_forall in Hext; [|done].
      eapply Forall_forall in Hrec; [|done].
      apply link_record_flags in Hrec as (u & _ & Hi & He & Hti & Hte).
      rewrite Hi, He, <-Hti, <-Hte. split; congruence.
    + change (Some (VInt (Z.of_nat (length
                (filter (λ l, field_true "is_internal" l) links))))
              = Some (VInt (Z.of_nat (length links)))).
      rewrite filter_all by (eapply Forall_impl; [exact Hint|];
                             by intros l ->).
      reflexivity.
    + assert (filter (λ l, field_true "is_external" l) links = []) as Hnil.
      { apply filter_none. eapply Forall_impl; [exact Hext|].
        by intros l -> []. }
      change (Some (VInt (Z.of_nat (length
                (filter (λ l, field_true "is_external" l) links))))
              = Some (VInt 0)).
      by rewrite Hnil.
  - intros Hfe.
    assert (Forall (λ l, field_true "is_external" l = true) links) as Hext.
    { rewrite Hlinks. apply Forall_fmap, Forall_forall.
      intros a [Hk _]%list_elem_of_filter. unfold link_kept in Hk.
      rewrite Hfe in Hk. cbn [negb orb] in Hk.
      apply Is_true_true in Hk. rewrite !andb_true_iff in Hk.
      by destruct Hk as [_ Hk]. }
    assert (Forall (λ l, field_true "is_internal" l = false) links) as Hint.
    { apply Forall_forall. intros l Hl.
      eapply Forall_forall in Hext; [|done].
      eapply Forall_forall in Hrec; [|done].
      apply link_record_exclusive in Hrec. rewrite Hext in Hrec.
      by destruct (field_true "is_internal" l). }
    split; [|split].
    + apply Forall_forall. intros l Hl.
      eapply Forall_forall in Hint; [|done].
      eapply Forall_forall in Hext; [|done].
      eapply Forall_forall in Hrec; [|done].
      apply link_record_flags in Hrec as (u & _ & Hi & He & Hti & Hte).
      rewrite Hi, He, <-Hti, <-Hte. split; congruence.
    + change (Some (VInt (Z.of_nat (length
                (filter (λ l, field_true "is_external" l) links))))
              = Some (VInt (Z.of_nat (length links)))).
      rewrite filter_all by (eapply Forall_impl; [exact Hext|];
                             by intros l ->).
      reflexivity.
    + assert (filter (λ l, field_true "is_internal" l) links = []) as Hnil.
      { apply filter_none. eapply Forall_impl; [exact Hint|].
        by intros l -> []. }
      change (Some (VInt (Z.of_nat (length
                (filter (λ l, field_true "is_internal" l) links))))
              = Some (VInt 0)).
      by rewrite Hnil.
Qed.

(** X8.  [_extract_links] returns a dictionary and never raises.  A
    dictionary with an [error] is [{source_url, error, status: "failed"}],
    keyed [source_url] and without [links].  A request that fails, a
    response with a status of 400 or more and a body that cannot be read
    each give this dictionary, with the text of the exception as [error].
    A dictionary without an [error] has [links] and comes from a response
    with a status below 400 whose body was read. *)
Theorem extract_links_failure args :
  ∃ d,
    _extract_links args = inr d ∧
    (has_key d "error" = true →
       (∃ e, d = {[ "source_url" := VStr (la_url args);
                    "error" := VStr (str_exn e);
                    "status" := VStr "failed" ]}) ∧
       d !! "links" = None ∧ d !! "url" = None) ∧
    (has_key d "error" = false →
       has_key d "links" = true ∧
       ∃ r html, session_get (la_url args) = inr r ∧ status r < 400 ∧
                 text r = inr html) ∧
    (∀ e, session_get (la_url args) = inl e →
          d = {[ "source_url" := VStr (la_url args);
                 "error" := VStr (str_exn e);
                 "status" := VStr "failed" ]}) ∧
    (∀ r, session_get (la_url args) = inr r → 400 ≤ status r →
          d = {[ "source_url" := VStr (la_url args);
                 "error" := VStr (str_exn (ClientResponseError (status r)
                                             (reason r) (real_url r)));
                 "status" := VStr "failed" ]}) ∧
    (∀ r e, session_get (la_url args) = inr r → status r < 400 →
            text r = inl e →
            d = {[ "source_url" := VStr (la_url args);
                   "error" := VStr (str_exn e);
                   "status" := VStr "failed" ]}).
Proof.
  unfold _extract_links.
  destruct (session_get (la_url args)) as [e|r] eqn:Hget; cbn [bind try_except].
  { eexists. split; [done|]. split; [by eauto|]. split; [done|].
    split; [by intros ? [= <-]|]. split; by intros. }
  unfold raise_for_status.
  destruct (Z.leb_spec 400 (status r)); cbn [bind raise ret try_except].
  { eexists. split; [done|]. split; [by eauto|]. split; [done|].
    split; [done|]. split; [by intros ? [= <-] _|].
    intros r' e [= <-] ?. lia. }
  destruct (text r) as [e|html] eqn:Htext; cbn [bind try_except].
  { eexists. split; [done|]. split; [by eauto|]. split; [done|].
    split; [done|]. split; [intros r' [= <-] ?; lia|].
    intros r' e' [= <-] _. rewrite Htext. by intros [= <-]. }
  eexists. split; [done|]. split; [done|].
  split; [intros _; split; [done|]; by exists r, html|].
  split; [done|]. split; [intros r' [= <-] ?; lia|].
  intros r' e' [= <-] _. by rewrite Htext.
Qed.

End links_extras.

(** ** Fetching a page and its metadata *)

Section fetch_extras.
Context `{World}.
Import WebFetchMCP.

(** X9.  A fetch that succeeds reports the length of the text of the
    response as [content_length] (whatever is extracted from it), has
    [metadata] exactly when [include_metadata] holds, and has either
    [content], when [extract_content] holds, or else [raw_html], which is
    then the text of the response unchanged; it has neither [error] nor
    [status]. *)
Theorem fetch_webpage_success_shape args r html :
  session_get (fa_url args) = inr r →
  status r < 400 →
  text r = inr html →
  ∃ d,
    _fetch_webpage args = inr d ∧
    d !! "error" = None ∧ d !! "status" = None ∧
    d !! "url" = Some (VStr (fa_url args)) ∧
    d !! "status_code" = Some (VInt (status r)) ∧
    d !! "content_type" = Some (VStr (default "" (headers r !! "content-type"))) ∧
    d !! "content_length" = Some (VInt (Py.len html)) ∧
    has_key d "metadata" = default true (fa_include_metadata args) ∧
    has_key d "content" = default true (fa_extract_content args) ∧
    has_key d "raw_html" = negb (default true (fa_extract_content args)) ∧
    (default true (fa_extract_content args) = false →
     d !! "raw_html" = Some (VStr html)).
Proof.
  intros Hget Hst Htext. unfold _fetch_webpage.
  rewrite Hget. cbn [bind try_except]. rewrite raise_for_status_ok by done.
  cbn [bind ret]. rewrite Htext. cbn [bind try_except ret].
  eexists. split; [reflexivity|].
  destruct (default true (fa_extract_content args)),
           (default true (fa_include_metadata args)),
           (truthy (trafilatura_extract html)); repeat split; try reflexivity;
    done.
Qed.

Lemma extract_metadata_keys html url key :
  is_Some (_extract_metadata html url !! key) →
  key ∈ "title" :: "canonical_url" :: "language" :: meta_fields.
Proof.
  intros [v Hv]. rewrite extract_metadata_lookup in Hv.
  destruct (decide (key = "language")) as [->|];
    [do 2 apply list_elem_of_further; apply list_elem_of_here|].
  destruct (decide (key = "canonical_url")) as [->|];
    [apply list_elem_of_further, list_elem_of_here|].
  destruct (decide (key = "title")) as [->|]; [apply list_elem_of_here|].
  apply fmap_Some in Hv as (m & Hm & _).
  apply last_Some_elem_of, list_elem_of_filter in Hm as [Hm _].
  apply meta_key_field in Hm. by do 3 apply list_elem_of_further.
Qed.

(** X10.  [_get_page_metadata] is [_fetch_webpage] with its metadata
    flattened: it fails exactly when the fetch fails, with the same
    dictionary; otherwise it has the [url], [status_code], [content_type]
    and [content_length] of the fetch, and under every other key what the
    [metadata] of the fetch has under it.  No field of the metadata is
    hidden by one of the four keys. *)
Theorem get_page_metadata_flattens_fetch url :
  ∃ page result,
    _fetch_webpage {| fa_url := url; fa_extract_content := None;
                      fa_include_metadata := None; fa_timeout := None |}
      = inr page ∧
    _get_page_metadata url = inr result ∧
    (has_key page "error" = true → result = page) ∧
    (has_key page "error" = false →
       ∃ metadata,
         page !! "metadata" = Some (VDict metadata) ∧
         (∀ key, key ∈ ["url"; "status_code"; "content_type"; "content_length"] →
                 result !! key = page !! key ∧ metadata !! key = None) ∧
         (∀ key, key ∉ ["url"; "status_code"; "content_type"; "content_length"] →
                 result !! key = metadata !! key)).
Proof.
  unfold _fetch_webpage, _get_page_metadata. cbn [fa_url].
  destruct (session_get url) as [e|r]; cbn [bind try_except].
  { eexists _, _. by repeat split. }
  unfold raise_for_status.
  destruct (400 <=? status r); cbn [bind raise ret try_except].
  { eexists _, _. by repeat split. }
  destruct (text r) as [e|html]; cbn [bind try_except ret].
  { eexists _, _. by repeat split. }
  cbn [default fa_include_metadata fa_extract_content].
  eexists _, _. split; [reflexivity|]. split; [reflexivity|].
  split; [by destruct (truthy _)|]. intros _.
  exists (VStr <$> _extract_metadata html url).
  split; [by destruct (truthy _)|]. split.
  - intros key Hkey.
    assert (_extract_metadata html url !! key = None) as Hnone.
    { destruct (_extract_metadata html url !! key) eqn:Hk; [|done].
      assert (key ∈ "title" :: "canonical_url" :: "language" :: meta_fields)
        as Hin by (by eapply extract_metadata_keys).
      revert Hkey Hin. rewrite !elem_of_cons.
      intros [->|[->|[->|[->|Hn]]]]; try (by apply elem_of_nil in Hn);
        intros Hin; exfalso; revert Hin;
        by apply (bool_decide_unpack _). }
    rewrite lookup_fmap, Hnone. split; [|done].
    revert Hkey. rewrite !elem_of_cons.
    intros [->|[->|[->|[->|Hn]]]]; [..|by apply elem_of_nil in Hn].
    all: etrans;
      [repeat (rewrite lookup_insert_eq || rewrite lookup_insert_ne by done);
       reflexivity|].
    all: by destruct (truthy _).
  - intros key Hkey.
    rewrite !lookup_insert_ne; [done|..];
      intros <-; apply Hkey; rewrite !elem_of_cons; tauto.
Qed.

End fetch_extras.

(** ** The batch *)

Section batch_extras.
Context `{World}.
Import WebFetchMCP.

Lemma fetch_webpage_url args :
  ∃ d, _fetch_webpage args = inr d ∧ d !! "url" = Some (VStr (fa_url args)).
Proof.
  destruct (fetch_webpage_cases args) as [[e He]|(r & html & Hg & Hs & Ht)].
  - by eexists.
  - destruct (fetch_webpage_ok args r html) as (d & Hd & _ & Hurl & _); by eauto.
Qed.

(** X11.  For an empty list of URLs the batch returns at once, whatever
    the ceiling (0 included): no URL, no success, no failure, no result. *)
Theorem batch_of_no_url args :
  ba_urls args = [] →
  0 ≤ default 5 (ba_max_concurrent args) →
  ∃ response,
    _fetch_multiple_pages args [] = Some (inr response) ∧
    response !! "total_urls" = Some (VInt 0) ∧
    response !! "successful" = Some (VInt 0) ∧
    response !! "failed" = Some (VInt 0) ∧
    response !! "results" = Some (VList []).
Proof.
  intros Hurls Hmc. rewrite fetch_multiple_pages_unfold by done. rewrite Hurls.
  eexists. split; [reflexivity|]. by repeat split.
Qed.

(** X13.  Every entry of the [results] of a batch is the dictionary that
    [_fetch_webpage] returns for the URL at the same rank, and carries that
    URL under [url], whether the fetch succeeded or not: the entry of a
    failure is [{url, error, status}], never the bare [{error}] that the
    code has in store for an exception. *)
Theorem batch_entries_carry_url args es out :
  0 ≤ default 5 (ba_max_concurrent args) →
  _fetch_multiple_pages args es = Some out →
  ∃ response entries,
    out = inr response ∧
    response !! "results" = Some (VList entries) ∧
    length entries = length (ba_urls args) ∧
    ∀ i url, ba_urls args !! i = Some url →
      ∃ d, entries !! i = Some (VDict d) ∧
           fetch_single args url = inr d ∧
           d !! "url" = Some (VStr url) ∧
           (has_key d "error" = true → d !! "status" = Some (VStr "failed")).
Proof.
  intros Hmc. rewrite fetch_multiple_pages_unfold by done.
  destruct (gather _ _ es) as [results|] eqn:Hg; [|done].
  apply gather_in_order in Hg as ->. intros [= <-].
  eexists _, (result_entry <$> (fetch_single args <$> ba_urls args)).
  split; [done|]. split; [reflexivity|].
  split; [by rewrite !length_fmap|].
  intros i url Hi. rewrite !list_lookup_fmap, Hi. cbn.
  destruct (fetch_webpage_url
              {| fa_url := url;
                 fa_extract_content := Some (default true (ba_extract_content args));
                 fa_include_metadata := Some (default true (ba_include_metadata args));
                 fa_timeout := Some (default 30 (ba_timeout args)) |})
    as (d & Hd & Hurl).
  exists d. unfold fetch_single. rewrite Hd. split; [done|]. split; [done|].
  split; [done|]. intros Herr.
  destruct (fetch_webpage_cases
              {| fa_url := url;
                 fa_extract_content := Some (default true (ba_extract_content args));
                 fa_include_metadata := Some (default true (ba_include_metadata args));
                 fa_timeout := Some (default 30 (ba_timeout args)) |})
    as [[e He]|(r & html & Hg & Hs & Ht)].
  - rewrite He in Hd. by injection Hd as <-.
  - destruct (fetch_webpage_ok _ r html Hg Hs Ht) as (d' & Hd' & Hnone & _).
    rewrite Hd' in Hd. injection Hd as <-.
    by rewrite has_key_None in Herr.
Qed.

End batch_extras.

(** ** The lines of the fallback content *)

Lemma one_line_push c l :
  Py.is_linebreak c = false →
  Forall (λ s, one_line s = true) l →
  Forall (λ s, one_line s = true) (Py.push_char c l).
Proof.
  intros Hc [|s l' Hs Hl]; cbn [Py.push_char]; constructor; try done;
    cbn [one_line]; by rewrite Hc.
Qed.

Lemma splitlines_one_line_aux n s :
  (String.length s < n)%nat → Forall (λ l, one_line l = true) (Py.splitlines s).
Proof.
  revert s; induction n as [|n IH]; intros s Hn; [lia|].
  destruct s as [|c s']; [constructor|]. cbn [String.length] in Hn.
  cbn [Py.splitlines]. destruct (Py.is_linebreak c) eqn:Hc.
  - destruct s' as [|c' s'']; [by repeat constructor|].
    cbn [String.length] in Hn.
    destruct (_ && _); constructor; try done; apply IH; cbn [String.length]; lia.
  - apply one_line_push; [done|]. apply IH. lia.
Qed.

Lemma splitlines_one_line s : Forall (λ l, one_line l = true) (Py.splitlines s).
Proof. apply (splitlines_one_line_aux (S (String.length s))). lia. Qed.

Lemma one_line_lstrip s : one_line s = true → one_line (Py.lstrip s) = true.
Proof.
  induction s as [|c s IH]; [done|]. cbn [Py.lstrip one_line].
  intros [Hc Hs]%andb_true_iff. destruct (Py.is_space c); [by apply IH|].
  cbn [one_line]. by rewrite Hc.
Qed.

Lemma one_line_rev_app s acc :
  one_line (String.rev_app s acc) = one_line s && one_line acc.
Proof.
  revert acc; induction s as [|c s IH]; intros acc; [done|].
  cbn [String.rev_app one_line]. rewrite IH. cbn [one_line].
  by destruct (Py.is_linebreak c), (one_line s), (one_line acc).
Qed.

Lemma one_line_rev s : one_line (String.rev s) = one_line s.
Proof. unfold String.rev. rewrite one_line_rev_app. cbn. by rewrite andb_true_r. Qed.

Lemma one_line_strip s : one_line s = true → one_line (Py.strip s) = true.
Proof.
  intros Hs. unfold Py.strip, Py.rstrip.
  rewrite one_line_rev. apply one_line_lstrip. rewrite one_line_rev.
  by apply one_line_lstrip.
Qed.

Lemma split_go_one_line sep skip s :
  one_line s = true → Forall (λ p, one_line p = true) (Py.split_go sep skip s).
Proof.
  revert skip; induction s as [|c s IH]; intros skip Hs; [by repeat constructor|].
  cbn [one_line] in Hs. apply andb_true_iff in Hs as [Hc Hs].
  apply negb_true_iff in Hc.
  cbn [Py.split_go]. destruct skip as [|k]; [|by apply IH].
  destruct (String.prefix sep (String c s)).
  - constructor; [done|]. by apply IH.
  - apply one_line_push; [done|]. by apply IH.
Qed.

Lemma splitlines_line p :
  one_line p = true → p ≠ "" → Py.splitlines p = [p].
Proof.
  induction p as [|c p IH]; [done|]. intros [Hc Hp]%andb_true_iff _.
  apply negb_true_iff in Hc. cbn [Py.splitlines]. rewrite Hc.
  destruct p as [|c' p']; [done|]. by rewrite IH.
Qed.

Lemma splitlines_line_more p rest :
  one_line p = true → p ≠ "" →
  Py.splitlines (p +:+ Py.NL +:+ rest) = p :: Py.splitlines rest.
Proof.
  induction p as [|c p IH]; [done|]. intros [Hc Hp]%andb_true_iff _.
  apply negb_true_iff in Hc.
  change (String c p +:+ Py.NL +:+ rest)
    with (String c (p +:+ Py.NL +:+ rest)).
  cbn [Py.splitlines]. rewrite Hc.
  destruct p as [|c' p'].
  - change ("" +:+ Py.NL +:+ rest) with (String Py.LF rest).
    cbn [Py.splitlines].
    change (Py.is_linebreak Py.LF) with true. cbn match.
    by destruct rest.
  - by rewrite IH.
Qed.

Lemma splitlines_join l :
  Forall (λ p, one_line p = true ∧ p ≠ "") l → Py.splitlines (Py.join Py.NL l) = l.
Proof.
  induction 1 as [|p l [Hp Hne] Hl IH]; [done|].
  destruct l as [|q l]; [by apply splitlines_line|].
  change (Py.join Py.NL (p :: q :: l))
    with (p +:+ Py.NL +:+ Py.join Py.NL (q :: l)).
  by rewrite splitlines_line_more, IH.
Qed.

Section fallback_extras.
Context `{World}.
Import WebFetchMCP.

(** X15.  The lines of the fallback content are exactly the chunks that
    the clean-up has kept, in order: splitting the content at its line
    boundaries gives them back.  So no line of the content is empty, the
    content neither starts nor ends with a newline, and it is empty only
    when no chunk is kept. *)
Theorem fallback_content_lines html :
  let text := Bs4.get_text (Bs4.extract_all ["script"; "style"] (BeautifulSoup html)) in
  let chunks :=
    chunks_of (flat_map (Py.split "  ") (Py.strip <$> Py.splitlines text)) in
  fallback_content html = Py.join Py.NL chunks ∧
  Py.splitlines (fallback_content html) = chunks ∧
  Forall (λ line, line ≠ "" ∧ one_line line = true)
         (Py.splitlines (fallback_content html)) ∧
  (fallback_content html = "" ↔ chunks = []).
Proof.
  intros text chunks.
  assert (Forall (λ p, one_line p = true ∧ p ≠ "") chunks) as Hchunks.
  { apply Forall_forall. intros chunk [Hne Hin]%list_elem_of_filter.
    split; [|done].
    apply list_elem_of_fmap in Hin as (piece & -> & Hin).
    apply one_line_strip.
    apply list_elem_of_In, in_flat_map in Hin as (line & Hline & Hpiece).
    apply list_elem_of_In, list_elem_of_fmap in Hline as (l & -> & Hl).
    apply list_elem_of_In in Hpiece.
    pose proof (splitlines_one_line text) as Hlines.
    rewrite Forall_forall in Hlines. specialize (Hlines l Hl).
    pose proof (split_go_one_line "  " 0 (Py.strip l)
                  (one_line_strip _ Hlines)) as Hpieces.
    rewrite Forall_forall in Hpieces. by apply Hpieces. }
  assert (fallback_content html = Py.join Py.NL chunks) as Hjoin by done.
  assert (Py.splitlines (fallback_content html) = chunks) as Hlines
    by (rewrite Hjoin; by apply splitlines_join).
  split; [done|]. split; [done|]. split.
  - rewrite Hlines. eapply Forall_impl; [exact Hchunks|]. by intros ? [? ?].
  - split.
    + intros Hempty. by rewrite <-Hlines, Hempty.
    + intros Hnil. by rewrite Hjoin, Hnil.
Qed.

End fallback_extras.

(** ** Calling the tools *)

Section tool_extras.
Context `{World}.
Import WebFetchMCP.
Variable json_dumps : dict → string.
Variable str_http_exception : Z → string → string.

Lemma extract_links_returns args : ∃ d, _extract_links args = inr d.
Proof.
  unfold _extract_links.
  destruct (session_get (la_url args)) as [e|r]; cbn [bind try_except];
    [by eexists|].
  destruct (raise_for_status r) as [e|[]]; cbn [bind try_except]; [by eexists|].
  destruct (text r) as [e|html]; cbn [bind try_except]; by eexists.
Qed.

Lemma get_page_metadata_returns url : ∃ d, _get_page_metadata url = inr d.
Proof.
  unfold _get_page_metadata.
  destruct (session_get url) as [e|r]; cbn [bind try_except]; [by eexists|].
  destruct (raise_for_status r) as [e|[]]; cbn [bind try_except]; [by eexists|].
  destruct (text r) as [e|html]; cbn [bind try_except]; by eexists.
Qed.

Lemma search_webpage_content_inr args :
  ∃ d, _search_webpage_content args = Some (inr d).
Proof.
  unfold _search_webpage_content.
  destruct (fetch_webpage_returns
              {| fa_url := sa_url args; fa_extract_content := Some true;
                 fa_include_metadata := Some false; fa_timeout := None |})
    as [page ->].
  destruct (has_key page "error"); [by eexists|].
  rewrite search_spec. by eexists.
Qed.

(** What the chain of [elif] does with a call whose required keys are
    there: it returns a dictionary, if it returns at all, but for a batch
    under a negative ceiling. *)
Lemma dispatch_complete name a es unknown out :
  name ∈ WebFetchHTTPServer.valid_tools →
  (name = "fetch_multiple_pages" → is_Some (arg_urls a)) →
  (name ≠ "fetch_multiple_pages" → is_Some (arg_url a)) →
  (name = "search_webpage_content" → is_Some (arg_search_terms a)) →
  (name = "fetch_multiple_pages" → 0 ≤ default 5 (arg_max_concurrent a)) →
  dispatch name a es unknown = Some out →
  ∃ d, out = inr d.
Proof.
  intros Hname Hurls Hurl Hterms Hmc. unfold dispatch.
  unfold call_fetch_webpage, call_fetch_multiple_pages,
    call_search_webpage_content, call_extract_links, call_get_page_metadata.
  repeat case_decide; subst.
  - destruct Hurl as [url ->]; [done|]. cbn [required bind ret].
    intros [= <-]. apply fetch_webpage_returns.
  - destruct Hurls as [urls ->]; [done|]. cbn [required ret].
    rewrite fetch_multiple_pages_unfold by (by apply Hmc).
    destruct (gather _ _ _); [|done]. intros [= <-]. by eexists.
  - destruct Hurl as [url ->]; [done|]. destruct Hterms as [terms ->]; [done|].
    cbn [required bind ret].
    destruct (search_webpage_content_inr
                {| sa_url := url; sa_search_terms := terms;
                   sa_case_sensitive := arg_case_sensitive a;
                   sa_context_chars := arg_context_chars a |}) as [d ->].
    intros [= <-]. by eexists.
  - destruct Hurl as [url ->]; [done|]. cbn [required bind ret].
    intros [= <-]. apply extract_links_returns.
  - destruct Hurl as [url ->]; [done|]. cbn [required bind ret].
    intros [= <-]. apply get_page_metadata_returns.
  - exfalso. revert Hname. unfold WebFetchHTTPServer.valid_tools.
    rewrite !elem_of_cons, elem_of_nil.
    intros [?|[?|[?|[?|[?|[]]]]]]; congruence.
Qed.

Lemma dispatch_valid name a es unknown unknown' :
  name ∈ WebFetchHTTPServer.valid_tools →
  dispatch name a es unknown = dispatch name a es unknown'.
Proof.
  intros Hname. unfold dispatch. repeat case_decide; try done.
  exfalso. revert Hname. unfold WebFetchHTTPServer.valid_tools.
  rewrite !elem_of_cons, elem_of_nil.
  intros [?|[?|[?|[?|[?|[]]]]]]; congruence.
Qed.

Lemma dispatch_unknown name a es unknown :
  name ∉ WebFetchHTTPServer.valid_tools →
  dispatch name a es unknown = unknown.
Proof.
  intros Hname. unfold dispatch.
  repeat case_decide; try done; subst; exfalso; apply Hname;
    unfold WebFetchHTTPServer.valid_tools; rewrite !elem_of_cons; tauto.
Qed.

(** X16.  [handle_call_tool] answers a call that it cannot make with an
    error result and no fetch: for a name that is not one of the five
    tools the text is "Error: Unknown tool: " and the name; for a missing
    required key it is "Error: " and the key between quotes, [url] being
    looked for before [search_terms]. *)
Theorem handle_call_tool_rejects name a es :
  (name ∉ WebFetchHTTPServer.valid_tools →
   handle_call_tool json_dumps name a es
   = Some {| content_text := "Error: Unknown tool: " +:+ name; isError := true |}) ∧
  (name ∈ ["fetch_webpage"; "search_webpage_content"; "extract_links";
           "get_page_metadata"] →
   arg_url a = None →
   handle_call_tool json_dumps name a es
   = Some {| content_text := "Error: 'url'"; isError := true |}) ∧
  (name = "search_webpage_content" → is_Some (arg_url a) →
   arg_search_terms a = None →
   handle_call_tool json_dumps name a es
   = Some {| content_text := "Error: 'search_terms'"; isError := true |}) ∧
  (name = "fetch_multiple_pages" → arg_urls a = None →
   handle_call_tool json_dumps name a es
   = Some {| content_text := "Error: 'urls'"; isError := true |}).
Proof.
  split; [|split; [|split]].
  - intros Hname. unfold handle_call_tool. by rewrite dispatch_unknown.
  - rewrite !elem_of_cons, elem_of_nil.
    intros [->|[->|[->|[->|[]]]]] Hurl; unfold handle_call_tool, dispatch;
      cbn; unfold call_fetch_webpage, call_search_webpage_content,
             call_extract_links, call_get_page_metadata; by rewrite Hurl.
  - intros -> [url Hurl] Hterms. unfold handle_call_tool, dispatch. cbn.
    unfold call_search_webpage_content. by rewrite Hurl, Hterms.
  - intros -> Hurls. unfold handle_call_tool, dispatch. cbn.
    unfold call_fetch_multiple_pages. by rewrite Hurls.
Qed.

(** X17.  A call of one of the five tools whose [arguments] have the
    required keys, an integer for [context_chars] and for [max_concurrent]
    (as the fields of [arguments] are typed) and, for a batch, a ceiling
    that is not negative, never gives an error result: whatever happens to
    the fetch, [isError] is false and the text is the JSON of a dictionary.
    For [fetch_webpage] this dictionary is the one that [_fetch_webpage]
    returns, the failure of the fetch included. *)
Theorem handle_call_tool_reports_failures_as_results name a es res :
  name ∈ WebFetchHTTPServer.valid_tools →
  (name = "fetch_multiple_pages" → is_Some (arg_urls a)) →
  (name ≠ "fetch_multiple_pages" → is_Some (arg_url a)) →
  (name = "search_webpage_content" → is_Some (arg_search_terms a)) →
  (name = "fetch_multiple_pages" → 0 ≤ default 5 (arg_max_concurrent a)) →
  handle_call_tool json_dumps name a es = Some res →
  isError res = false ∧
  (∃ d, content_text res = json_dumps d) ∧
  (∀ url, name = "fetch_webpage" → arg_url a = Some url →
     ∃ d, _fetch_webpage {| fa_url := url;
                            fa_extract_content := arg_extract_content a;
                            fa_include_metadata := arg_include_metadata a;
                            fa_timeout := arg_timeout a |} = inr d ∧
          content_text res = json_dumps d).
Proof.
  intros Hname Hurls Hurl Hterms Hmc. unfold handle_call_tool.
  destruct (dispatch name a es _) as [out|] eqn:Hout; [|done].
  destruct (dispatch_complete name a es _ out Hname Hurls Hurl Hterms Hmc Hout)
    as [d ->].
  intros [= <-]. cbn. split; [done|]. split; [by exists d|].
  intros url -> Ha. unfold dispatch in Hout. cbn in Hout.
  unfold call_fetch_webpage in Hout. rewrite Ha in Hout. cbn in Hout.
  injection Hout as Hout. by exists d.
Qed.

(** X18.  The HTTP wrapper never raises, its own 404 included: for a name
    that is not one of the five tools the [HTTPException] is caught by the
    handler of the same [try], and the answer is [{success: false, error}]
    with the text of that exception. *)
Theorem http_call_tool_unknown name a es :
  name ∉ WebFetchHTTPServer.valid_tools →
  WebFetchHTTPServer.call_tool str_http_exception name a es
  = Some (inr {[ "success" := VBool false;
                 "error" := VStr (str_http_exception 404
                                    ("Tool '" +:+ name +:+ "' not found")) ]}).
Proof.
  intros Hname. unfold WebFetchHTTPServer.call_tool.
  by rewrite decide_False by done.
Qed.

(** X19.  The HTTP wrapper and [handle_call_tool] agree on every call of
    one of the five tools: both return or neither does, [success] is the
    negation of [isError], a success carries under [result] the dictionary
    whose JSON is the text of the tool result, and an error carries the
    same message. *)
Theorem http_call_tool_agrees name a es :
  name ∈ WebFetchHTTPServer.valid_tools →
  match handle_call_tool json_dumps name a es,
        WebFetchHTTPServer.call_tool str_http_exception name a es with
  | Some res, Some (inr d) =>
      d !! "success" = Some (VBool (negb (isError res))) ∧
      (isError res = false →
         ∃ result, d !! "result" = Some (VDict result) ∧ d !! "error" = None ∧
                   content_text res = json_dumps result) ∧
      (isError res = true →
         ∃ message, d !! "error" = Some (VStr message) ∧ d !! "result" = None ∧
                    content_text res = "Error: " +:+ message)
  | None, None => True
  | _, _ => False
  end.
Proof.
  intros Hname. unfold handle_call_tool, WebFetchHTTPServer.call_tool.
  rewrite decide_True by done.
  rewrite (dispatch_valid name a es (Some (raise (ValueError _))) None Hname).
  rewrite (dispatch_valid name a es
             (Some (raise WebFetchHTTPServer.UnboundLocalError)) None Hname).
  destruct (dispatch name a es None) as [[e|result]|]; cbn; [| |done].
  - split; [done|]. split; [done|]. intros _. by eexists.
  - split; [done|]. split; [|done]. intros _. by eexists.
Qed.

Lemma call_tool_shape name a es out :
  WebFetchHTTPServer.call_tool str_http_exception name a es = Some out →
  (∃ result, out = inr {[ "success" := VBool true; "result" := VDict result ]}) ∨
  (∃ e, out = inr {[ "success" := VBool false; "error" := VStr (str_exn e) ]}).
Proof.
  unfold WebFetchHTTPServer.call_tool. cbv zeta.
  destruct (decide (name ∈ WebFetchHTTPServer.valid_tools)) as [Hname|Hname].
  - destruct (dispatch name a es _) as [[e|result]|]; [| |done];
      intros [= <-]; [right|left]; eexists; reflexivity.
  - intros [= <-]. right.
    by exists (WebFetchHTTPServer.HTTPException str_http_exception 404
                 ("Tool '" +:+ name +:+ "' not found")).
Qed.

(** X23.  No handler function that calls a tool raises.  What the
    function [call_tool] returns is [{success: true, result}] or
    [{success: false, error}], never both keys and never an exception, so
    that the [except] branch of the function [call_tool_generic], which
    would raise the exception of status 500, is never taken: called with a
    tool name and arguments, [call_tool_generic] returns what [call_tool]
    returns for them.  The five convenience functions are [call_tool] at
    their tool, which is always one of the valid ones.  (This is about the
    functions, not about which of them the router picks for a path.) *)
Theorem http_routes_never_raise name a es :
  WebFetchHTTPServer.call_tool_generic str_http_exception name a es
  = WebFetchHTTPServer.call_tool str_http_exception name a es ∧
  (∀ out, WebFetchHTTPServer.call_tool str_http_exception name a es = Some out →
     ∃ d, out = inr d ∧
          ((d !! "success" = Some (VBool true) ∧ has_key d "result" = true
            ∧ has_key d "error" = false) ∨
           (d !! "success" = Some (VBool false) ∧ has_key d "error" = true
            ∧ has_key d "result" = false))) ∧
  (∀ route, route ∈ [WebFetchHTTPServer.fetch_webpage_endpoint;
                     WebFetchHTTPServer.fetch_multiple_endpoint;
                     WebFetchHTTPServer.search_endpoint;
                     WebFetchHTTPServer.links_endpoint;
                     WebFetchHTTPServer.metadata_endpoint] →
     ∃ tool, tool ∈ WebFetchHTTPServer.valid_tools ∧
             route str_http_exception a es
             = WebFetchHTTPServer.call_tool str_http_exception tool a es).
Proof.
  split; [|split].
  - unfold WebFetchHTTPServer.call_tool_generic.
    destruct (WebFetchHTTPServer.call_tool _ name a es) as [out|] eqn:Hout;
      [|done].
    by destruct (call_tool_shape _ _ _ _ Hout) as [[result ->]|[e ->]].
  - intros out Hout.
    destruct (call_tool_shape _ _ _ _ Hout) as [[result ->]|[e ->]];
      eexists; (split; [reflexivity|]); [left|right]; split_and!; reflexivity.
  - intros route. unfold WebFetchHTTPServer.valid_tools.
    rewrite !elem_of_cons, elem_of_nil.
    intros [->|[->|[->|[->|[->|[]]]]]]; eexists; (split; [|reflexivity]);
      rewrite !elem_of_cons; tauto.
Qed.

End tool_extras.

(** ** The shared session *)

Section session_facts.
Import Session.

(** X20.  [_get_session] returns an open session, which is from then on
    the session of the server: asking again returns the same one and
    changes nothing.  A session is created only when the server has none
    or a closed one; an open session is returned as it is, with the
    timeout that it has. *)
Theorem get_session_reuses srv :
  let '(s, srv') := _get_session srv in
  closed s = false ∧
  current srv' = Some s ∧
  _get_session srv' = (s, srv') ∧
  (∀ s0, current srv = Some s0 → closed s0 = false → s = s0 ∧ srv' = srv) ∧
  (created srv' = created srv ∨
   created srv' = S (created srv) ∧ sid s = created srv ∧ timeout s = 30).
Proof.
  unfold _get_session. destruct srv as [[[i [] t]|] n]; cbn.
  - split_and!; try done; [by intros ? [= <-]|by right].
  - split_and!; try done; [by intros ? [= <-]|by left].
  - split_and!; try done. by right.
Qed.

Lemma step_created srv c :
  (created (step srv c).2 + needs_session (step srv c).2
   ≤ created srv + needs_session srv + (if c is Cleanup then 1 else 0))%nat.
Proof.
  destruct srv as [[[i [] t]|] n], c; cbn; lia.
Qed.

(** X21.  Over any sequence of calls the server creates at most one
    session more than it has been cleaned up: the calls share one session
    until [cleanup] closes it. *)
Theorem sessions_created_bound cs :
  (created (run init cs)
   ≤ 1 + length (filter is_cleanup cs))%nat.
Proof.
  assert (∀ srv, created (run srv cs) + needs_session (run srv cs)
                 ≤ created srv + needs_session srv
                   + length (filter is_cleanup cs))%nat as Hrun.
  { induction cs as [|c cs IH]; intros srv; [cbn; lia|].
    cbn [run foldl]. fold (run (step srv c).2 cs).
    specialize (IH (step srv c).2). pose proof (step_created srv c).
    rewrite filter_cons. destruct c; cbn [is_cleanup] in *;
      case_decide; try done; cbn [length]; lia. }
  specialize (Hrun init). cbn in Hrun. lia.
Qed.

(** X22.  The timeout that [_fetch_webpage] sets stays on the shared
    session: the calls of [_extract_links] and [_get_page_metadata] that
    follow it use the same session with that timeout (30 when the fetch had
    none), not a timeout of their own. *)
Theorem fetch_timeout_persists srv t cs c :
  Forall (λ c, c = ExtractLinks ∨ c = GetPageMetadata) (cs ++ [c]) →
  ∃ s,
    (step srv (FetchWebpage t)).1 = Some s ∧
    timeout s = default 30 t ∧ closed s = false ∧
    (step (run (step srv (FetchWebpage t)).2 cs) c).1 = Some s.
Proof.
  intros Hcs.
  assert (closed (_get_session srv).1 = false) as Hopen
    by (unfold _get_session; by destruct srv as [[[i [] t']|] n]).
  destruct (_get_session srv) as [s0 srv0] eqn:Hs0. cbn [fst] in Hopen.
  set (s := {| sid := sid s0; closed := closed s0; timeout := default 30 t |}).
  assert (step srv (FetchWebpage t)
          = (Some s, {| current := Some s; created := created srv0 |})) as Hstep
    by (cbn; by rewrite Hs0).
  exists s. rewrite Hstep. cbn [fst snd]. split; [done|]. split; [done|].
  split; [done|].
  assert (∀ srv1, current srv1 = Some s →
            ∀ l, Forall (λ c, c = ExtractLinks ∨ c = GetPageMetadata) l →
                 current (run srv1 l) = Some s) as Hrun.
  { intros srv1 Hcur l Hl. revert srv1 Hcur.
    induction Hl as [|c' l [-> | ->] _ IH]; intros srv1 Hcur; [done|..];
      cbn [run foldl]; apply IH; cbn; unfold _get_session;
      rewrite Hcur; cbn; by rewrite Hopen. }
  rewrite Forall_app, Forall_singleton in Hcs. destruct Hcs as [Hcs Hc].
  specialize (Hrun {| current := Some s; created := created srv0 |}
                eq_refl cs Hcs).
  destruct Hc as [-> | ->]; cbn; unfold _get_session; rewrite Hrun; cbn;
    by rewrite Hopen.
Qed.

End session_facts.
(* ===================================================================== *)
(** * The properties on the example world *)
(* ===================================================================== *)

Section examples.
#[local] Existing Instance Example.world.

Lemma search_finds_overlapping_occurrences_witness :
  Py.find "aaa" "aa" 0 ≠ -1 ∧
  ∃ m, field "position" m = Some (VInt (Py.find "aaa" "aa" 0)) ∧
       WebFetchMCP.scan_term 5 "aaa" "aaa" 200 "aa" 0 []
       = WebFetchMCP.scan_term 4 "aaa" "aaa" 200 "aa" (Py.find "aaa" "aa" 0 + 1) ([] ++ [m]).
Proof.
  split; [by vm_compute|].
  apply (proj1 search_finds_overlapping_occurrences 4%nat "aaa" "aaa" 200 "aa" 0 []).
  by vm_compute.
Defined.

Lemma search_context_window_witness :
  ∃ m ms, WebFetchMCP.search "Hello hello" ["HELLO"] false 4 = Some (m :: ms) ∧
          field "position" m = Some (VInt 0) ∧
          field "context" m = Some (VStr "Hello h") ∧
          field "context_start" m = Some (VInt 0) ∧
          field "context_end" m = Some (VInt 7).
Proof.
  destruct (search_context_window "Hello hello" ["HELLO"] false 4)
    as (matches & Hs & Hall).
  assert (∃ m ms, matches = m :: ms ∧ field "position" m = Some (VInt 0))
    as (m & ms & -> & Hpos).
  { rewrite search_spec in Hs. injection Hs as <-. by eexists _, _. }
  exists m, ms. split; [exact Hs|]. split; [exact Hpos|].
  destruct (Hall m) as (term & pos & _ & _ & _ & Hterm & Hposition & Hcontext
                        & Hstart & Hend & _); [apply list_elem_of_here|].
  assert (term = "hello") as ->.
  { clear -Hs Hterm. rewrite search_spec in Hs. injection Hs as <- _.
    by injection Hterm as <-. }
  assert (pos = 0) as ->
    by (clear -Hpos Hposition; rewrite Hpos in Hposition; by injection Hposition).
  split; [exact Hcontext|]. split; [exact Hstart|exact Hend].
Defined.




Lemma search_terms_casing_witness :
  ∃ response m ms,
    WebFetchMCP._search_webpage_content
      {| sa_url := "https://a.com/words"; sa_search_terms := ["HELLO"];
         sa_case_sensitive := None; sa_context_chars := Some 4 |}
    = Some (inr response) ∧
    response !! "search_terms" = Some (VList [VStr "HELLO"]) ∧
    response !! "matches" = Some (VList (m :: ms)) ∧
    field "term" m = Some (VStr "hello").
Proof.
  destruct (search_terms_casing
              {| sa_url := "https://a.com/words"; sa_search_terms := ["HELLO"];
                 sa_case_sensitive := None; sa_context_chars := Some 4 |}
              {[ "url" := VStr "https://a.com/words";
                 "status_code" := VInt 200;
                 "content_type" := VStr "text/html";
                 "content_length" := VInt 18;
                 "content" := VStr "Hello hello" ]})
    as (response & matches & Hr & Hterms & Hms & Hall); [reflexivity..|].
  change (Some (@inr exn dict
    ({[ "url" := VStr "https://a.com/words";
        "search_terms" := VList [VStr "HELLO"];
        "total_matches" := VInt 2;
        "matches" := VList [match_at "Hello hello" 4 "hello" 0;
                            match_at "Hello hello" 4 "hello" 6];
        "content_length" := VInt 11 ]})) = Some (inr response)) in Hr.
  injection Hr as <-.
  change (Some (VList [match_at "Hello hello" 4 "hello" 0;
                       match_at "Hello hello" 4 "hello" 6])
          = Some (VList matches)) in Hms.
  injection Hms as <-.
  eexists _, _, _. split; [reflexivity|]. split; [reflexivity|].
  split; [reflexivity|].
  destruct (Hall (match_at "Hello hello" 4 "hello" 0)) as (term & Hterm & Hf);
    [apply list_elem_of_here|].
  reflexivity.
Defined.

Lemma metadata_last_occurrence_wins_witness :
  "description" ∈ meta_fields ∧
  WebFetchMCP._extract_metadata Example.html_meta "https://a.com/meta"
    !! "description" = Some "second".
Proof.
  assert ("description" ∈ meta_fields) as Hf by apply list_elem_of_here.
  split; [exact Hf|].
  rewrite (metadata_last_occurrence_wins Example.html_meta "https://a.com/meta"
             "description" Hf).
  reflexivity.
Defined.

(** C2, as stated, fails: of two meta tags named description the second
    one, not the first, gives the field. *)
Lemma metadata_first_occurrence_counterexample :
  ∃ first rest,
    metas_for "description" (BeautifulSoup Example.html_meta) = first :: rest ∧
    Bs4.get first "content" "" = "first" ∧
    WebFetchMCP._extract_metadata Example.html_meta "https://a.com/meta"
      !! "description" = Some "second" ∧
    WebFetchMCP._extract_metadata Example.html_meta "https://a.com/meta"
      !! "description" ≠ Some (Bs4.get first "content" "").
Proof.
  eexists _, _. split; [reflexivity|]. split; [reflexivity|].
  split; [reflexivity|]. discriminate.
Qed.

Lemma metadata_field_presence_witness :
  WebFetchMCP._extract_metadata Example.html_links "https://a.com/p" !! "title"
    = Some "Links" ∧
  WebFetchMCP._extract_metadata Example.html_links "https://a.com/p" !! "description"
    = None ∧
  WebFetchMCP._extract_metadata Example.html_links "https://a.com/p" !! "canonical_url"
    = None ∧
  WebFetchMCP._extract_metadata Example.html_meta "https://a.com/meta" !! "og_title"
    = Some "".
Proof.
  destruct (metadata_field_presence Example.html_links "https://a.com/p")
    as (Htitle & Hfields & Hcanon & _).
  destruct (metadata_field_presence Example.html_meta "https://a.com/meta")
    as (_ & Hfields' & _).
  split; [rewrite Htitle; reflexivity|].
  split.
  { apply (Hfields "description"); [apply list_elem_of_here|reflexivity]. }
  split; [apply Hcanon; reflexivity|].
  eapply (Hfields' "og_title");
    [do 3 apply list_elem_of_further; apply list_elem_of_here|reflexivity..].
Defined.

(** C8, as stated, fails: in a document without a title element, with an
    html element that has no lang and a meta tag that has no content, the
    fields [title], [language] and [og_title] are in the mapping, each with
    the empty string. *)
Lemma metadata_placeholder_counterexample :
  Bs4.find "title" (BeautifulSoup Example.html_meta) = None ∧
  WebFetchMCP._extract_metadata Example.html_meta "https://a.com/meta" !! "title"
    = Some "" ∧
  WebFetchMCP._extract_metadata Example.html_meta "https://a.com/meta" !! "language"
    = Some "" ∧
  WebFetchMCP._extract_metadata Example.html_meta "https://a.com/meta" !! "og_title"
    = Some "".
Proof. repeat split; reflexivity. Qed.

Lemma content_fallback_witness :
  ∃ d, WebFetchMCP._fetch_webpage
         {| fa_url := "https://a.com/hello"; fa_extract_content := None;
            fa_include_metadata := Some false; fa_timeout := None |} = inr d ∧
       d !! "content" = Some (VStr ("Hello" +:+ Py.NL +:+ "World")).
Proof.
  destruct (content_fallback
              {| fa_url := "https://a.com/hello"; fa_extract_content := None;
                 fa_include_metadata := Some false; fa_timeout := None |}
              {| status := 200; reason := "OK"; real_url := "";
                 headers := {[ "content-type" := "text/html" ]};
                 text := ret Example.html_hello |}
              Example.html_hello)
    as (d & content & Hd & Hcontent & Hfallback & _ & _ & _ & _ & Hhello).
  - reflexivity.
  - simpl. lia.
  - reflexivity.
  - reflexivity.
  - exists d. split; [exact Hd|].
    rewrite Hcontent, Hfallback by (by left). by rewrite Hhello.
Defined.

(** C3, as stated, fails on its example: the chunks "Hello" and "World" are
    joined with a newline, not with a space. *)
Lemma fallback_hello_world_counterexample :
  trafilatura_extract Example.html_hello = None ∧
  BeautifulSoup Example.html_hello = Example.soup_hello ∧
  WebFetchMCP.fallback_content Example.html_hello = "Hello" +:+ Py.NL +:+ "World" ∧
  WebFetchMCP.fallback_content Example.html_hello ≠ "Hello World".
Proof. repeat split; try reflexivity. discriminate. Qed.

Lemma links_internal_external_exclusive_witness :
  ∃ l1 l2 l3,
    Example.links_of_p !! "links" = Some (VList [l1; l2; l3]) ∧
    field "url" l1 = Some (VStr "https://a.com/x") ∧
    field "is_internal" l1 = Some (VBool true) ∧
    field "is_external" l1 = Some (VBool false) ∧
    field "url" l2 = Some (VStr "https://b.com/y") ∧
    field "is_internal" l2 = Some (VBool false) ∧
    field "is_external" l2 = Some (VBool true) ∧
    field "url" l3 = Some (VStr "mailto:me@a.com") ∧
    field "is_internal" l3 = Some (VBool false) ∧
    field "is_external" l3 = Some (VBool false).
Proof.
  destruct (links_internal_external_exclusive
              {| la_url := "https://a.com/p"; la_filter_internal := None;
                 la_filter_external := None; la_include_anchors := None |}
              Example.links_of_p)
    as (links & Hlinks & Hall & _); [reflexivity..|].
  eexists _, _, _. repeat split; reflexivity.
Defined.

Lemma links_counts_witness :
  Example.links_of_p !! "total_links" = Some (VInt 3) ∧
  Example.links_of_p !! "internal_count" = Some (VInt 1) ∧
  Example.links_of_p !! "external_count" = Some (VInt 1).
Proof.
  destruct (links_counts
              {| la_url := "https://a.com/p"; la_filter_internal := None;
                 la_filter_external := None; la_include_anchors := None |}
              Example.links_of_p)
    as (links & Hlinks & _ & Htotal & Hinternal & Hexternal & _);
    [reflexivity..|].
  repeat split; reflexivity.
Defined.

Lemma batch_results_in_input_order_witness :
  ∃ response,
    WebFetchMCP._fetch_multiple_pages Example.batch
      [WebFetchMCP.Acquire; WebFetchMCP.Complete 0;
       WebFetchMCP.Acquire; WebFetchMCP.Complete 1;
       WebFetchMCP.Acquire; WebFetchMCP.Complete 2] = Some (inr response) ∧
    response !! "results"
      = Some (VList [VDict (Example.outcome "https://a.com/words");
                     VDict (Example.outcome "https://a.com/missing");
                     VDict (Example.outcome "https://a.com/hello")]) ∧
    has_key (Example.outcome "https://a.com/missing") "error" = true ∧
    response !! "total_urls" = Some (VInt 3) ∧
    response !! "successful" = Some (VInt 2) ∧
    response !! "failed" = Some (VInt 1).
Proof.
  destruct (batch_results_in_input_order Example.batch)
    as (Hsame & Hruns & _ & Hthree).
  destruct (Hthree "https://a.com/words" "https://a.com/missing"
              "https://a.com/hello"
              (Example.outcome "https://a.com/words")
              (Example.outcome "https://a.com/missing")
              (Example.outcome "https://a.com/hello"))
    as (Hresults & Hsuccessful & Hfailed); [reflexivity..|].
  assert (∃ out, WebFetchMCP._fetch_multiple_pages Example.batch
                   [WebFetchMCP.Acquire; WebFetchMCP.Complete 0;
                    WebFetchMCP.Acquire; WebFetchMCP.Complete 1;
                    WebFetchMCP.Acquire; WebFetchMCP.Complete 2] = Some out)
    as [out Hout] by (eexists; reflexivity).
  assert (0 ≤ default 5 (ba_max_concurrent Example.batch)) as Hmc
    by (simpl; lia).
  pose proof (Hsame Hmc _ out Hout) as ->.
  eexists. split; [exact Hout|].
  split; [exact Hresults|]. split; [reflexivity|]. split; [reflexivity|].
  split; [exact Hsuccessful|exact Hfailed].
Defined.

(** ** The further properties on the example world *)

Lemma search_total_matches_witness :
  ∃ response,
    WebFetchMCP._search_webpage_content
      {| sa_url := "https://a.com/words"; sa_search_terms := ["HELLO"; "l"];
         sa_case_sensitive := None; sa_context_chars := None |}
    = Some (inr response) ∧
    response !! "total_matches" = Some (VInt 6) ∧
    response !! "content_length" = Some (VInt 11).
Proof.
  destruct (search_total_matches
              {| sa_url := "https://a.com/words";
                 sa_search_terms := ["HELLO"; "l"];
                 sa_case_sensitive := None; sa_context_chars := None |}
              Example.words_page)
    as (response & matches & Hr & _ & Htotal & Hlength & Hsum & _);
    [reflexivity..|].
  exists response. split; [exact Hr|]. split; [|exact Hlength].
  rewrite Htotal, Hsum. reflexivity.
Defined.

Lemma search_context_contains_match_witness :
  ∃ m, WebFetchMCP.search "Hello hello" ["hello"] true 4 = Some [m] ∧
       field "position" m = Some (VInt 6) ∧
       field "context" m = Some (VStr "o hello") ∧
       field "context_start" m = Some (VInt 4) ∧
       Py.slice "o hello" (6 - 4) (6 - 4 + Py.len "hello") = "hello".
Proof.
  destruct (search_context_contains_match "Hello hello" ["hello"] true 4)
    as (matches & Hs & Hall); [lia|].
  assert (∃ m, matches = [m] ∧
               field "term" m = Some (VStr "hello") ∧
               field "position" m = Some (VInt 6) ∧
               field "context" m = Some (VStr "o hello") ∧
               field "context_start" m = Some (VInt 4))
    as (m & -> & Hterm & Hpos & Hcontext & Hstart).
  { rewrite search_spec in Hs. injection Hs as <-. eexists.
    split; [reflexivity|]. repeat split; reflexivity. }
  exists m. split; [exact Hs|]. split; [exact Hpos|]. split; [exact Hcontext|].
  split; [exact Hstart|].
  destruct (Hall m) as (term & pos & context & context_start & Hterm' & Hpos'
                        & Hcontext' & Hstart' & _ & Hin);
    [apply list_elem_of_here|].
  rewrite Hterm in Hterm'. injection Hterm' as <-.
  rewrite Hpos in Hpos'. injection Hpos' as <-.
  rewrite Hcontext in Hcontext'. injection Hcontext' as <-.
  rewrite Hstart in Hstart'. injection Hstart' as <-.
  exact (proj1 (Hin eq_refl)).
Defined.

Lemma links_in_document_order_witness :
  ∃ kept,
    kept `sublist_of` anchors Example.soup_links ∧
    Example.links_of_p !! "links"
      = Some (VList (link_info "https://a.com/p" <$> kept)) ∧
    length kept = 3%nat.
Proof.
  destruct (links_in_document_order
              {| la_url := "https://a.com/p"; la_filter_internal := None;
                 la_filter_external := None; la_include_anchors := None |}
              Example.links_of_p)
    as (r & html & kept & Hr & Hhtml & _ & Hlinks & _ & _ & Hkept);
    [reflexivity..|].
  injection Hr as <-. injection Hhtml as <-.
  exists kept. rewrite Hkept by reflexivity. clear.
  split; [apply sublist_filter|]. split; reflexivity.
Defined.

Lemma links_filters_witness :
  ∃ l,
    Example.internal_links_of_p !! "links" = Some (VList [l]) ∧
    field "is_internal" l = Some (VBool true) ∧
    Example.internal_links_of_p !! "total_links" = Some (VInt 1) ∧
    Example.internal_links_of_p !! "internal_count" = Some (VInt 1) ∧
    Example.internal_links_of_p !! "external_count" = Some (VInt 0).
Proof.
  destruct (links_filters
              {| la_url := "https://a.com/p"; la_filter_internal := Some true;
                 la_filter_external := None; la_include_anchors := None |}
              Example.internal_links_of_p)
    as (links & total & Hlinks & Htotal & Hinternal & _); [reflexivity..|].
  destruct Hinternal as (Hall & Hcount & Hnone); [reflexivity|].
  assert (Example.internal_links_of_p !! "links"
          = Some (VList [link_info "https://a.com/p"
                           (Bs4.Tag "a" {[ "href" := "/x" ]}
                              [Bs4.NavigableString "X"])])) as Hone
    by reflexivity.
  rewrite Hone in Hlinks. injection Hlinks as <-.
  apply Forall_cons_1 in Hall as [[Hflag _] _].
  eexists. split; [exact Hone|]. split; [exact Hflag|].
  assert (total = 1) as -> by (clear -Htotal; by injection Htotal as <-).
  split; [exact Htotal|]. split; [exact Hcount|exact Hnone].
Defined.

Lemma fetch_webpage_success_shape_witness :
  ∃ d,
    WebFetchMCP._fetch_webpage
      {| fa_url := "https://a.com/words"; fa_extract_content := Some false;
         fa_include_metadata := None; fa_timeout := None |} = inr d ∧
    d !! "status_code" = Some (VInt 200) ∧
    d !! "content_type" = Some (VStr "text/html") ∧
    d !! "content_length" = Some (VInt 18) ∧
    has_key d "metadata" = true ∧
    has_key d "content" = false ∧
    d !! "raw_html" = Some (VStr "<p>Hello hello</p>").
Proof.
  destruct (fetch_webpage_success_shape
              {| fa_url := "https://a.com/words"; fa_extract_content := Some false;
                 fa_include_metadata := None; fa_timeout := None |}
              {| status := 200; reason := "OK"; real_url := "";
                 headers := {[ "content-type" := "text/html" ]};
                 text := ret Example.html_words |}
              Example.html_words)
    as (d & Hd & _ & _ & _ & Hcode & Htype & Hlength & Hmeta & Hcontent & _ & Hraw).
  - reflexivity.
  - simpl. lia.
  - reflexivity.
  - exists d. split; [exact Hd|]. split; [exact Hcode|]. split; [exact Htype|].
    split; [exact Hlength|]. split; [exact Hmeta|]. split; [exact Hcontent|].
    apply Hraw. reflexivity.
Defined.

Lemma batch_of_no_url_witness :
  ∃ response,
    WebFetchMCP._fetch_multiple_pages
      {| ba_urls := []; ba_extract_content := None; ba_include_metadata := None;
         ba_max_concurrent := Some 0; ba_timeout := None |} []
    = Some (inr response) ∧
    response !! "total_urls" = Some (VInt 0) ∧
    response !! "successful" = Some (VInt 0) ∧
    response !! "failed" = Some (VInt 0) ∧
    response !! "results" = Some (VList []).
Proof.
  apply (batch_of_no_url
           {| ba_urls := []; ba_extract_content := None;
              ba_include_metadata := None; ba_max_concurrent := Some 0;
              ba_timeout := None |}).
  - reflexivity.
  - simpl. lia.
Defined.

Lemma batch_entries_carry_url_witness :
  ∃ response d,
    WebFetchMCP._fetch_multiple_pages Example.batch
      [WebFetchMCP.Acquire; WebFetchMCP.Complete 0;
       WebFetchMCP.Acquire; WebFetchMCP.Complete 1;
       WebFetchMCP.Acquire; WebFetchMCP.Complete 2] = Some (inr response) ∧
    (∃ entries, response !! "results" = Some (VList entries) ∧
                entries !! 1%nat = Some (VDict d)) ∧
    d !! "url" = Some (VStr "https://a.com/missing") ∧
    d !! "status" = Some (VStr "failed").
Proof.
  assert (∃ out, WebFetchMCP._fetch_multiple_pages Example.batch
                   [WebFetchMCP.Acquire; WebFetchMCP.Complete 0;
                    WebFetchMCP.Acquire; WebFetchMCP.Complete 1;
                    WebFetchMCP.Acquire; WebFetchMCP.Complete 2] = Some out)
    as [out Hout] by (eexists; reflexivity).
  destruct (batch_entries_carry_url Example.batch
              [WebFetchMCP.Acquire; WebFetchMCP.Complete 0;
               WebFetchMCP.Acquire; WebFetchMCP.Complete 1;
               WebFetchMCP.Acquire; WebFetchMCP.Complete 2] out) as
    (response & entries & -> & Hresults & _ & Hentry);
    [simpl; lia|exact Hout|].
  destruct (Hentry 1%nat "https://a.com/missing") as (d & Hd & Hsingle & Hurl & Hfailed);
    [reflexivity|].
  exists response, d. split; [exact Hout|]. split; [by exists entries|].
  split; [exact Hurl|]. apply Hfailed.
  clear -Hsingle. injection Hsingle as <-. reflexivity.
Defined.

Lemma handle_call_tool_rejects_witness :
  WebFetchMCP.handle_call_tool Example.dumps "fetch_page" Example.missing_page []
  = Some {| WebFetchMCP.content_text := "Error: Unknown tool: fetch_page";
            WebFetchMCP.isError := true |} ∧
  WebFetchMCP.handle_call_tool Example.dumps "search_webpage_content"
    Example.no_arguments []
  = Some {| WebFetchMCP.content_text := "Error: 'url'";
            WebFetchMCP.isError := true |} ∧
  WebFetchMCP.handle_call_tool Example.dumps "search_webpage_content"
    Example.missing_page []
  = Some {| WebFetchMCP.content_text := "Error: 'search_terms'";
            WebFetchMCP.isError := true |} ∧
  WebFetchMCP.handle_call_tool Example.dumps "fetch_multiple_pages"
    Example.missing_page []
  = Some {| WebFetchMCP.content_text := "Error: 'urls'";
            WebFetchMCP.isError := true |}.
Proof.
  split; [|split; [|split]].
  - apply (proj1 (handle_call_tool_rejects Example.dumps "fetch_page"
                    Example.missing_page [])).
    apply (bool_decide_unpack _). by vm_compute.
  - apply (proj1 (proj2 (handle_call_tool_rejects Example.dumps
                           "search_webpage_content" Example.no_arguments []))).
    + apply (bool_decide_unpack _). by vm_compute.
    + reflexivity.
  - apply (proj1 (proj2 (proj2 (handle_call_tool_rejects Example.dumps
                                  "search_webpage_content"
                                  Example.missing_page [])))).
    + reflexivity.
    + by eexists.
    + reflexivity.
  - apply (proj2 (proj2 (proj2 (handle_call_tool_rejects Example.dumps
                                  "fetch_multiple_pages"
                                  Example.missing_page [])))).
    + reflexivity.
    + reflexivity.
Defined.

Lemma handle_call_tool_reports_failures_as_results_witness :
  ∃ res d,
    WebFetchMCP.handle_call_tool Example.dumps "fetch_webpage"
      Example.missing_page [] = Some res ∧
    WebFetchMCP.isError res = false ∧
    WebFetchMCP.content_text res = Example.dumps d ∧
    d !! "status" = Some (VStr "failed").
Proof.
  assert (∃ res, WebFetchMCP.handle_call_tool Example.dumps "fetch_webpage"
                   Example.missing_page [] = Some res) as [res Hres]
    by (eexists; reflexivity).
  destruct (handle_call_tool_reports_failures_as_results Example.dumps
              "fetch_webpage" Example.missing_page [] res)
    as (Herror & _ & Hfetch).
  - apply (bool_decide_unpack _). by vm_compute.
  - intros [=].
  - intros _. by eexists.
  - intros [=].
  - intros [=].
  - exact Hres.
  - destruct (Hfetch "https://a.com/missing") as (d & Hd & Htext);
      [reflexivity..|].
    exists res, d. split; [exact Hres|]. split; [exact Herror|].
    split; [exact Htext|]. clear -Hd. injection Hd as <-. reflexivity.
Defined.

Lemma http_call_tool_unknown_witness :
  WebFetchHTTPServer.call_tool Example.str_http_exception "fetch_page"
    Example.missing_page []
  = Some (inr {[ "success" := VBool false;
                 "error" := VStr "404: Tool 'fetch_page' not found" ]}).
Proof.
  apply (http_call_tool_unknown Example.str_http_exception "fetch_page"
           Example.missing_page []).
  apply (bool_decide_unpack _). by vm_compute.
Defined.

Lemma http_call_tool_agrees_witness :
  ∃ res d,
    WebFetchMCP.handle_call_tool Example.dumps "extract_links"
      Example.no_arguments [] = Some res ∧
    WebFetchHTTPServer.call_tool Example.str_http_exception "extract_links"
      Example.no_arguments [] = Some (inr d) ∧
    WebFetchMCP.content_text res = "Error: 'url'" ∧
    d !! "success" = Some (VBool false) ∧
    d !! "error" = Some (VStr "'url'").
Proof.
  pose proof (http_call_tool_agrees Example.dumps Example.str_http_exception
                "extract_links" Example.no_arguments []) as Hagree.
  assert (∃ res, WebFetchMCP.handle_call_tool Example.dumps "extract_links"
                   Example.no_arguments [] = Some res
                 ∧ WebFetchMCP.content_text res = "Error: 'url'"
                 ∧ WebFetchMCP.isError res = true) as (res & Hres & Htext & Herror)
    by (eexists; repeat split; reflexivity).
  assert (∃ d, WebFetchHTTPServer.call_tool Example.str_http_exception
                 "extract_links" Example.no_arguments [] = Some (inr d))
    as [d Hd] by (eexists; reflexivity).
  rewrite Hres, Hd in Hagree.
  destruct Hagree as (Hsuccess & _ & Hmessage);
    [apply (bool_decide_unpack _); by vm_compute|].
  destruct (Hmessage Herror) as (message & Hm & _ & Hsame).
  exists res, d. split; [exact Hres|]. split; [exact Hd|]. split; [exact Htext|].
  rewrite Herror in Hsuccess. split; [exact Hsuccess|].
  rewrite Hm. rewrite Htext in Hsame. cbv in Hsame.
  injection Hsame as Hsame. by rewrite <-Hsame.
Defined.

Lemma fetch_timeout_persists_witness :
  ∃ s,
    (Session.step Session.init (Session.FetchWebpage (Some 5))).1 = Some s ∧
    Session.timeout s = 5 ∧
    (Session.step
       (Session.run (Session.step Session.init (Session.FetchWebpage (Some 5))).2
          [Session.GetPageMetadata])
       Session.ExtractLinks).1 = Some s.
Proof.
  destruct (fetch_timeout_persists Session.init (Some 5)
              [Session.GetPageMetadata] Session.ExtractLinks)
    as (s & Hs & Htimeout & _ & Hlater).
  - constructor; [by right|]. constructor; [by left|]. constructor.
  - by exists s.
Defined.

End examples.
